(** * Food-van voting session: the reducer and its callers

    A shallow embedding of [src/hooks/useVotingSession.ts]: the tally
    aggregation [derivePercentages], the state machine [reducer], the
    bootstrap loader, the three realtime handlers, [castVote] and the admin
    operations.

    Conventions of the embedding.
    - A JS number is [Int z], an integer-valued double, or [NaN].  The
      increment and decrement of a count are binary64 additions ([js_add]).
      The total of the counts is taken in [Z]: binary64 addition of
      non-negative integers is exact, in whatever order the keys are visited,
      while the total stays below 2^53, and every theorem about a total
      carries such a bound.
    - [Math.round((n / total) * 100)] leaves the integers.  Division and
      multiplication are IEEE 754 binary64 operations, i.e. the exact result
      rounded to nearest, ties to even, on a 53-bit significand: that is [RN]
      below, over the rationals [Q].
    - A [Record<string, number>] is a finite map [gmap string JsNum] of its
      own properties.  Reading a key that is not an own property finds the
      members of [Object.prototype] ([js_get]); assigning to the key
      ["__proto__"] calls the inherited setter and creates no property
      ([js_assign]); a spread with a computed key creates an own property for
      any key.
    - Asynchronous code is embedded by what it dispatches: a handler is a
      function from the answers of the store to the list of actions it sends
      to the reducer, in order.  The realtime handlers read [pollRef.current],
      which the hook refreshes when it renders ([Session]). *)

From Stdlib Require Import ZArith QArith Qpower Qround Qfield Lia Lqa List.
From Stdlib Require Import Floats.SpecFloat.
From stdpp Require Import gmap strings list fin_maps.

Local Open Scope Z_scope.

(** ** Types *)

Record Van := {
  van_id : string;
  van_poll_id : string;
  van_name : string;
  van_description : option string;
  van_image_url : option string;
  van_created_at : string
}.

Record Poll := {
  poll_id : string;
  poll_title : string;
  month_year : string;
  is_active : bool;
  created_by : option string;
  poll_created_at : string
}.

(** Row of the [vote_counts] view, as selected by the loader. *)
Record VoteCountRow := {
  row_van_id : string;
  row_total_votes : Z
}.

(** The values a count can take. *)
Inductive JsNum :=
  | Int (z : Z)
  | NaN.

Abbreviation VoteCounts := (gmap string JsNum).

Inductive VotingStatus := idle | submitting | voted | error.

(** [error_msg] is the [error] field of the state; the name [error] is the
    status above. *)
Record VotingState := {
  poll : option Poll;
  vans : list Van;
  voteCounts : VoteCounts;
  userVanId : option string;
  totalVotes : JsNum;
  percentages : gmap string JsNum;
  status : VotingStatus;
  error_msg : option string;
  isLoadingPoll : bool;
  isLoadingCounts : bool
}.

(** The [delta: 1 | -1] field of [COUNT_UPDATED]. *)
Inductive Delta := Plus1 | Minus1.

Definition delta_value (d : Delta) : Z :=
  match d with Plus1 => 1 | Minus1 => -1 end.

Inductive Action :=
  | POLL_LOADED (p : Poll) (vs : list Van)
  | COUNTS_LOADED (counts : VoteCounts)
  | USER_VOTE_LOADED (vanId : option string)
  | COUNT_UPDATED (vanId : string) (delta : Delta)
  | POLL_REPLACED (p : Poll) (vs : list Van)
  | SUBMITTING
  | VOTE_SUCCESS (vanId : string)
  | VOTE_ERROR (err : string)
  | CLEAR_ERROR
  | NO_ACTIVE_POLL.

(** ** Binary64 arithmetic *)

Module Binary64.

Local Open Scope Q_scope.

(** [2^k] for any integer [k]. *)
Definition pow2 (k : Z) : Q := Qpower 2 k.

(** [floor (log2 x)] for a positive rational [x]. *)
Definition ilog2 (x : Q) : Z :=
  let k := (Z.log2 (Qnum x) - Z.log2 (Zpos (Qden x)))%Z in
  if Qle_bool (pow2 k) x then k else (k - 1)%Z.

(** Nearest integer, ties to the even one. *)
Definition rne (x : Q) : Z :=
  let f := Qfloor x in
  match Qcompare (x - inject_Z f) (1 # 2) with
  | Lt => f
  | Gt => (f + 1)%Z
  | Eq => if Z.even f then f else (f + 1)%Z
  end.

(** Rounding of a positive rational to binary64: a 53-bit significand
    scaled by a power of two not below the subnormal exponent. *)
Definition RN_pos (x : Q) : Q :=
  let e := Z.max (ilog2 x - 52) (-1074) in
  inject_Z (rne (x / pow2 e)) * pow2 e.

Definition RN (x : Q) : Q :=
  match Qcompare x 0 with
  | Eq => 0
  | Gt => RN_pos x
  | Lt => - RN_pos (- x)
  end.

(** JS [a / b] and [a * b] on finite numbers, [b] non-zero for the quotient. *)
Definition fdiv (a b : Q) : Q := RN (a / b).
Definition fmul (a b : Q) : Q := RN (a * b).

(** [Math.round]: the nearest integer, ties towards +infinity. *)
Definition Math_round (x : Q) : Z := Qfloor (x + (1 # 2)).

(** The double nearest to an integer; it is an integer itself. *)
Definition round_int (z : Z) : Z := Qfloor (RN (inject_Z z)).

End Binary64.

(** JS [a + b] on numbers. *)
Definition js_add (a b : JsNum) : JsNum :=
  match a, b with
  | Int x, Int y => Int (Binary64.round_int (x + y))
  | _, _ => NaN
  end.

(** ** Objects used as maps *)

(** The names of the members of [Object.prototype]. *)
Definition object_prototype_names : list string :=
  ["constructor"; "hasOwnProperty"; "isPrototypeOf"; "propertyIsEnumerable";
   "toLocaleString"; "toString"; "valueOf"; "__proto__";
   "__defineGetter__"; "__defineSetter__"; "__lookupGetter__"; "__lookupSetter__"].

(** What [obj[key]] finds. *)
Inductive JsRead :=
  | Own (n : JsNum)
  | Inherited
  | Undefined.

(** [obj[key]]: the own property, else the member of [Object.prototype] of
    that name, a function or an object, else [undefined]. *)
Definition js_get (o : gmap string JsNum) (key : string) : JsRead :=
  match o !! key with
  | Some n => Own n
  | None => if bool_decide (key ∈ object_prototype_names) then Inherited else Undefined
  end.

(** [obj[key] = v] for a number [v]: for ["__proto__"] the setter inherited
    from [Object.prototype] runs, ignores a value that is not an object, and
    no property is created. *)
Definition js_assign (o : gmap string JsNum) (key : string) (v : JsNum)
  : gmap string JsNum :=
  if String.eqb key "__proto__" then o else <[key := v]> o.

(** ** Reducer *)

(** The sum of two counts in [Z]; see the conventions above. *)
Definition sum_add (s n : JsNum) : JsNum :=
  match s, n with
  | Int x, Int y => Int (x + y)
  | _, _ => NaN
  end.

(** [Object.values(counts).reduce((s, n) => s + n, 0)] *)
Definition sum_values (counts : VoteCounts) : JsNum :=
  map_fold (fun _ n s => sum_add s n) (Int 0) counts.

(** [total === 0 ? 0 : Math.round((n / total) * 100)] on integers. *)
Definition percent (total n : Z) : Z :=
  if total =? 0 then 0
  else Binary64.Math_round
         (Binary64.fmul (Binary64.fdiv (inject_Z n) (inject_Z total)) (inject_Z 100)).

(** The same on numbers: [NaN === 0] is false, and a quotient or product
    with [NaN] is [NaN], which [Math.round] returns. *)
Definition js_percent (total n : JsNum) : JsNum :=
  match total, n with
  | Int t, Int k => Int (percent t k)
  | Int t, NaN => if t =? 0 then Int 0 else NaN
  | NaN, _ => NaN
  end.

(** The loop [percentages[id] = ...] runs over the own properties of
    [counts]. *)
Definition derivePercentages (counts : VoteCounts) : gmap string JsNum * JsNum :=
  let total := sum_values counts in
  (map_fold (fun id n pcts => js_assign pcts id (js_percent total n)) ∅ counts,
   total).

Definition initialState : VotingState := {|
  poll := None;
  vans := [];
  voteCounts := ∅;
  userVanId := None;
  totalVotes := Int 0;
  percentages := ∅;
  status := idle;
  error_msg := None;
  isLoadingPoll := true;
  isLoadingCounts := true
|}.

(** JS truthiness of a [string | null] value: [null] and the empty string
    are falsy. *)
Definition truthy (o : option string) : bool :=
  match o with
  | Some s => negb (String.eqb s "")
  | None => false
  end.

(** The value of [(x ?? 0) + delta]: a number, or, when [x] is an inherited
    function or object, the concatenation of its text with the text of
    [delta], a string that is not numeric. *)
Inductive JsSum :=
  | Number (n : JsNum)
  | NonNumericString.

(** [(state.voteCounts[id] ?? 0) + delta] *)
Definition plus_delta (r : JsRead) (d : Delta) : JsSum :=
  match r with
  | Own n => Number (js_add n (Int (delta_value d)))
  | Undefined => Number (js_add (Int 0) (Int (delta_value d)))
  | Inherited => NonNumericString
  end.

(** [Math.max(0, v)] *)
Definition Math_max0 (v : JsSum) : JsNum :=
  match v with
  | Number (Int z) => Int (Z.max 0 z)
  | Number NaN => NaN
  | NonNumericString => NaN
  end.

(** The number [state.voteCounts[id] ?? 0] evaluates to, when it is one. *)
Definition count_of (counts : VoteCounts) (id : string) : option JsNum :=
  match js_get counts id with
  | Own n => Some n
  | Undefined => Some (Int 0)
  | Inherited => None
  end.

(** Each arm spreads [...state] and overrides the fields it names. The
    [default] arm of the source is unreachable for a value of type [Action]. *)
Definition reducer (state : VotingState) (action : Action) : VotingState :=
  match action with
  | POLL_LOADED p vs =>
      {| poll := Some p; vans := vs;
         voteCounts := voteCounts state; userVanId := userVanId state;
         totalVotes := totalVotes state; percentages := percentages state;
         status := status state; error_msg := error_msg state;
         isLoadingPoll := false; isLoadingCounts := isLoadingCounts state |}
  | NO_ACTIVE_POLL =>
      {| poll := None; vans := [];
         voteCounts := ∅; userVanId := userVanId state;
         totalVotes := totalVotes state; percentages := percentages state;
         status := status state; error_msg := error_msg state;
         isLoadingPoll := false; isLoadingCounts := false |}
  | COUNTS_LOADED counts =>
      let '(pcts, total) := derivePercentages counts in
      {| poll := poll state; vans := vans state;
         voteCounts := counts; userVanId := userVanId state;
         totalVotes := total; percentages := pcts;
         status := status state; error_msg := error_msg state;
         isLoadingPoll := isLoadingPoll state; isLoadingCounts := false |}
  | USER_VOTE_LOADED vanId =>
      {| poll := poll state; vans := vans state;
         voteCounts := voteCounts state; userVanId := vanId;
         totalVotes := totalVotes state; percentages := percentages state;
         status := (if truthy vanId then voted else idle);
         error_msg := error_msg state;
         isLoadingPoll := isLoadingPoll state;
         isLoadingCounts := isLoadingCounts state |}
  | COUNT_UPDATED vanId delta =>
      let updated :=
        <[vanId := Math_max0 (plus_delta (js_get (voteCounts state) vanId) delta)]>
          (voteCounts state) in
      let '(pcts, total) := derivePercentages updated in
      {| poll := poll state; vans := vans state;
         voteCounts := updated; userVanId := userVanId state;
         totalVotes := total; percentages := pcts;
         status := status state; error_msg := error_msg state;
         isLoadingPoll := isLoadingPoll state;
         isLoadingCounts := isLoadingCounts state |}
  | POLL_REPLACED p vs =>
      {| poll := Some p; vans := vs;
         voteCounts := ∅; userVanId := None;
         totalVotes := Int 0; percentages := ∅;
         status := idle; error_msg := error_msg state;
         isLoadingPoll := isLoadingPoll state; isLoadingCounts := true |}
  | SUBMITTING =>
      {| poll := poll state; vans := vans state;
         voteCounts := voteCounts state; userVanId := userVanId state;
         totalVotes := totalVotes state; percentages := percentages state;
         status := submitting; error_msg := None;
         isLoadingPoll := isLoadingPoll state;
         isLoadingCounts := isLoadingCounts state |}
  | VOTE_SUCCESS vanId =>
      {| poll := poll state; vans := vans state;
         voteCounts := voteCounts state; userVanId := Some vanId;
         totalVotes := totalVotes state; percentages := percentages state;
         status := voted; error_msg := error_msg state;
         isLoadingPoll := isLoadingPoll state;
         isLoadingCounts := isLoadingCounts state |}
  | VOTE_ERROR err =>
      {| poll := poll state; vans := vans state;
         voteCounts := voteCounts state; userVanId := userVanId state;
         totalVotes := totalVotes state; percentages := percentages state;
         status := error; error_msg := Some err;
         isLoadingPoll := isLoadingPoll state;
         isLoadingCounts := isLoadingCounts state |}
  | CLEAR_ERROR =>
      {| poll := poll state; vans := vans state;
         voteCounts := voteCounts state; userVanId := userVanId state;
         totalVotes := totalVotes state; percentages := percentages state;
         status := idle; error_msg := None;
         isLoadingPoll := isLoadingPoll state;
         isLoadingCounts := isLoadingCounts state |}
  end.

(** The state after a run of dispatches, oldest first. *)
Definition dispatch_all (s : VotingState) (acts : list Action) : VotingState :=
  foldl reducer s acts.

(** ** The store and its answers *)

(** A Supabase answer [{ data, error }]; [resp_error] holds the message of
    the error object when there is one. *)
Record Response (A : Type) := {
  resp_data : option A;
  resp_error : option string
}.
Arguments resp_data {A} _.
Arguments resp_error {A} _.

(** The queries the hook sends, as functions of their filters. *)
Record Store := {
  (** [from("polls").select("*").eq("is_active", true).maybeSingle()] *)
  active_poll : Response Poll;
  (** [from("vans").select("*").eq("poll_id", id).order("created_at")] *)
  vans_for : string -> Response (list Van);
  (** [from("vote_counts").select(...).eq("month_year", period)] *)
  counts_for : string -> Response (list VoteCountRow);
  (** [auth.getUser()]: the user's id, if signed in *)
  auth_user : option string;
  (** [existingVote?.van_id] for a user id and a period *)
  vote_for : string -> string -> option string
}.

(** ** Bootstrap loader *)

(** [counts[v.id] = 0] for each van, then [counts[r.van_id] = r.total_votes]
    for each row. *)
Definition seed_counts (vs : list Van) (rows : list VoteCountRow) : VoteCounts :=
  foldl (fun c r => js_assign c (row_van_id r) (Int (row_total_votes r)))
        (foldl (fun c v => js_assign c (van_id v) (Int 0)) ∅ vs)
        rows.

(** Step 1d of the loader. [cancelled k] is the value of the [cancelled]
    flag when the [k]-th await resumes. *)
Definition bootstrap_user_vote (st : Store) (cancelled : nat -> bool) (p : Poll)
  : list Action :=
  match auth_user st with
  | None => []
  | Some uid =>
      if cancelled 4%nat then []
      else if cancelled 5%nat then []
      else [USER_VOTE_LOADED (vote_for st uid (month_year p))]
  end.

(** Step 1c of the loader, followed by 1d. *)
Definition bootstrap_counts (st : Store) (cancelled : nat -> bool) (p : Poll)
    (vs : list Van) : list Action :=
  let r := counts_for st (month_year p) in
  if cancelled 3%nat then []
  else
    (match resp_error r, resp_data r with
     | None, Some rows => [COUNTS_LOADED (seed_counts vs rows)]
     | _, _ => []
     end) ++ bootstrap_user_vote st cancelled p.

(** The actions [bootstrap()] dispatches, in order. *)
Definition bootstrap (st : Store) (cancelled : nat -> bool) : list Action :=
  let r1 := active_poll st in
  if cancelled 1%nat then []
  else
    match resp_error r1 with
    | Some _ => [NO_ACTIVE_POLL]
    | None =>
        match resp_data r1 with
        | None => [NO_ACTIVE_POLL]
        | Some p =>
            let r2 := vans_for st (poll_id p) in
            if cancelled 2%nat then []
            else
              match resp_error r2 with
              | Some _ => []
              | None =>
                  let vs := default [] (resp_data r2) in
                  POLL_LOADED p vs :: bootstrap_counts st cancelled p vs
              end
        end
    end.

(** ** Realtime handlers *)

(** INSERT on [votes]; [currentPoll] is [pollRef.current]. *)
Definition on_vote_insert (currentPoll : option Poll) (new_van_id new_month_year : string)
  : list Action :=
  match currentPoll with
  | Some cp =>
      if String.eqb new_month_year (month_year cp)
      then [COUNT_UPDATED new_van_id Plus1] else []
  | None => []
  end.

(** DELETE on [votes]. *)
Definition on_vote_delete (currentPoll : option Poll) (old_van_id old_month_year : string)
  : list Action :=
  match currentPoll with
  | Some cp =>
      if String.eqb old_month_year (month_year cp)
      then [COUNT_UPDATED old_van_id Minus1] else []
  | None => []
  end.

Inductive EventType := INSERT | UPDATE | DELETE.

(** Any change on [polls]. *)
Definition on_polls_change (st : Store) (eventType : EventType) (newPoll : Poll)
  : list Action :=
  match eventType with
  | INSERT => [POLL_REPLACED newPoll (default [] (resp_data (vans_for st (poll_id newPoll))))]
  | UPDATE =>
      if is_active newPoll
      then [POLL_REPLACED newPoll (default [] (resp_data (vans_for st (poll_id newPoll))))]
      else []
  | DELETE => []
  end.

(** Any change on [vans]. *)
Definition on_vans_change (st : Store) (currentPoll : option Poll) : list Action :=
  match currentPoll with
  | None => []
  | Some cp =>
      match resp_data (vans_for st (poll_id cp)) with
      | Some vs => [POLL_REPLACED cp vs]
      | None => []
      end
  end.

(** The state after the [vans] handler ran against a state [s] that the
    hook has rendered, so that [pollRef.current] is [s.poll]. *)
Definition handle_vans_change (st : Store) (s : VotingState) : VotingState :=
  dispatch_all s (on_vans_change st (poll s)).

(** ** Vote submission *)

(** The payload of a [cast_vote] answer: [{ error: string }] on a
    business-rule failure. *)
Record RpcData := { data_error : option string }.

(** [data?.error] *)
Definition embedded_error (r : Response RpcData) : option string :=
  resp_data r ≫= data_error.

(** The two dispatches of [castVote(vanId)], given the answer of the RPC. *)
Definition castVote (vanId : string) (r : Response RpcData) : list Action :=
  SUBMITTING ::
  match resp_error r with
  | Some msg => [VOTE_ERROR msg]
  | None =>
      if truthy (embedded_error r)
      then [VOTE_ERROR (default "" (embedded_error r))]
      else [VOTE_SUCCESS vanId]
  end.

(** ** The contract of the aggregation, in the words of the specification *)

(** The integer a count stands for. *)
Definition int_value (n : JsNum) : Z :=
  match n with Int z => z | NaN => 0 end.

(** A count that is a non-negative integer. *)
Definition nonneg (n : JsNum) : Prop :=
  match n with Int z => 0 <= z | NaN => False end.

Definition nonneg_counts (counts : VoteCounts) : Prop :=
  map_Forall (fun _ n => nonneg n) counts.

(** Sum of all values of a count mapping. *)
Definition spec_total (counts : VoteCounts) : Z :=
  foldr Z.add 0 (int_value <$> (map_to_list counts).*2).

(** [round(100 × count / total)] on the exact quotient, halves rounded up. *)
Definition spec_round_half_up (count total : Z) : Z :=
  (200 * count + total) / (2 * total).

(** The same with halves rounded to the even neighbour. *)
Definition spec_round_half_even (count total : Z) : Z :=
  let q := (100 * count) / total in
  let r := (100 * count) mod total in
  if 2 * r <? total then q
  else if total <? 2 * r then q + 1
  else if Z.even q then q else q + 1.

(** The contract for a given reading of [round]. *)
Definition tally_contract (round : Z -> Z -> Z) : Prop :=
  forall counts : VoteCounts,
    nonneg_counts counts ->
    (derivePercentages counts).2 = Int (spec_total counts) /\
    forall id n, counts !! id = Some (Int n) ->
      (derivePercentages counts).1 !! id =
        Some (Int (if spec_total counts =? 0 then 0
                   else round n (spec_total counts))).

(** ** Reachability and the projection invariant *)

Inductive reachable : VotingState -> Prop :=
  | reachable_init : reachable initialState
  | reachable_step s a : reachable s -> reachable (reducer s a).

(** Percentages and total are the aggregation of the counts of the state. *)
Definition projection_ok (s : VotingState) : Prop :=
  (percentages s, totalVotes s) = derivePercentages (voteCounts s).

(** A key whose read gives a number: an own property, or a name that
    [Object.prototype] does not have. *)
Definition reads_number (counts : VoteCounts) (id : string) : Prop :=
  is_Some (counts !! id) \/ id ∉ object_prototype_names.

(** ** Realtime events against a session *)

(** The state after the INSERT handler on [votes] ran against a state [s]
    that the hook has rendered, so that [pollRef.current] is [s.poll]. *)
Definition handle_vote_insert (s : VotingState) (new_van_id new_month_year : string)
  : VotingState :=
  dispatch_all s (on_vote_insert (poll s) new_van_id new_month_year).

(** The same for the DELETE handler on [votes]. *)
Definition handle_vote_delete (s : VotingState) (old_van_id old_month_year : string)
  : VotingState :=
  dispatch_all s (on_vote_delete (poll s) old_van_id old_month_year).

(** The state after the handler on [polls] ran against [s]; this handler
    does not read [pollRef]. *)
Definition handle_polls_change (st : Store) (s : VotingState) (eventType : EventType)
    (newPoll : Poll) : VotingState :=
  dispatch_all s (on_polls_change st eventType newPoll).

(** A change notification on one of the three subscribed tables. *)
Inductive Event :=
  | VoteInserted (new_van_id new_month_year : string)
  | VoteDeleted (old_van_id old_month_year : string)
  | PollsChanged (eventType : EventType) (newPoll : Poll)
  | VansChanged.

(** What the handler of a notification dispatches, while the store answers
    as [st] and [pollRef.current] is [currentPoll]. *)
Definition on_event (st : Store) (currentPoll : option Poll) (e : Event) : list Action :=
  match e with
  | VoteInserted id period => on_vote_insert currentPoll id period
  | VoteDeleted id period => on_vote_delete currentPoll id period
  | PollsChanged ev np => on_polls_change st ev np
  | VansChanged => on_vans_change st currentPoll
  end.

(** The hook between two steps: the reducer state and [pollRef.current]. *)
Record Session := {
  view : VotingState;
  pollRef : option Poll
}.

(** A step of the session: a notification is handled, or the hook renders
    and runs [pollRef.current = state.poll]. *)
Inductive Step :=
  | Notified (st : Store) (e : Event)
  | Rendered.

Definition session_step (x : Session) (k : Step) : Session :=
  match k with
  | Notified st e =>
      {| view := dispatch_all (view x) (on_event st (pollRef x) e);
         pollRef := pollRef x |}
  | Rendered => {| view := view x; pollRef := poll (view x) |}
  end.

Definition session_run (x : Session) (ks : list Step) : Session :=
  foldl session_step x ks.

(** The session right after the hook rendered state [s]. *)
Definition rendered (s : VotingState) : Session :=
  {| view := s; pollRef := poll s |}.

(** The van a vote notification is about. *)
Definition step_van_id (k : Step) : option string :=
  match k with
  | Notified _ (VoteInserted id _) => Some id
  | Notified _ (VoteDeleted id _) => Some id
  | _ => None
  end.

(** A step whose van, if any, does not bear the name of a member of
    [Object.prototype]. *)
Definition plain_step (k : Step) : Prop :=
  match step_van_id k with
  | Some id => id ∉ object_prototype_names
  | None => True
  end.

(** An action whose counts are non-negative integers and whose van, if any,
    does not bear the name of a member of [Object.prototype]. *)
Definition plain_action (a : Action) : Prop :=
  match a with
  | COUNTS_LOADED counts => nonneg_counts counts
  | COUNT_UPDATED id _ => id ∉ object_prototype_names
  | _ => True
  end.

(** ** Admin operations *)

(** [NewVanInput]; [nv_image_url] is the optional field. *)
Record NewVanInput := {
  nv_name : string;
  nv_description : string;
  nv_image_url : option string
}.

(** [{ ...v, poll_id }], a row sent to [vans]. *)
Record VanRow := {
  vr_name : string;
  vr_description : string;
  vr_image_url : option string;
  vr_poll_id : string
}.

(** The write requests the admin operations send. *)
Inductive DbWrite :=
  (** [from("polls").update({ is_active: false }).eq("is_active", true)] *)
  | DeactivateActive
  (** [from("polls").insert({ title, month_year, is_active: true, created_by })] *)
  | InsertPoll (title monthYear : string) (createdBy : option string)
  (** [from("vans").insert(vanRows)] *)
  | InsertVans (rows : list VanRow)
  (** [from("votes").delete().eq("month_year", period)] *)
  | DeleteVotes (period : string)
  (** [from("polls").update({ is_active: false }).eq("id", pollId)] *)
  | DeactivatePoll (pollId : string).

(** The answers of the store to the admin requests; an [option string] is
    the message of the error object, if any. *)
Record AdminStore := {
  deactivate_active_err : option string;
  admin_user : option string;
  insert_poll : string -> string -> option string -> Response Poll;
  insert_vans_err : list VanRow -> option string;
  select_period : string -> Response string;
  delete_votes_err : string -> option string;
  deactivate_poll_err : string -> option string
}.

(** An admin operation resolves to [{ error }], or rejects when it reads a
    field of a [null] row. *)
Inductive AdminResult :=
  | Returned (err : option string)
  | Thrown.

Definition van_row (pollId : string) (v : NewVanInput) : VanRow := {|
  vr_name := nv_name v;
  vr_description := nv_description v;
  vr_image_url := nv_image_url v;
  vr_poll_id := pollId
|}.

(** [vans.map((v) => ({ ...v, poll_id: poll.id }))]: [poll.id] is read once
    per van, so a [null] row makes the map throw unless there is no van. *)
Definition van_rows (row : option Poll) (vs : list NewVanInput) : option (list VanRow) :=
  match row, vs with
  | Some p, _ => Some (map (van_row (poll_id p)) vs)
  | None, [] => Some []
  | None, _ :: _ => None
  end.

(** [createPoll]: the writes it sends, in order, and its result. *)
Definition createPoll (db : AdminStore) (title monthYear : string)
    (vs : list NewVanInput) : list DbWrite * AdminResult :=
  match deactivate_active_err db with
  | Some msg => ([DeactivateActive], Returned (Some msg))
  | None =>
      let user := admin_user db in
      let r := insert_poll db title monthYear user in
      match resp_error r with
      | Some msg =>
          ([DeactivateActive; InsertPoll title monthYear user], Returned (Some msg))
      | None =>
          match van_rows (resp_data r) vs with
          | None => ([DeactivateActive; InsertPoll title monthYear user], Thrown)
          | Some vanRows =>
              ([DeactivateActive; InsertPoll title monthYear user; InsertVans vanRows],
               Returned (insert_vans_err db vanRows))
          end
      end
  end.

(** [resetPoll] *)
Definition resetPoll (db : AdminStore) (pollId : string) : list DbWrite * AdminResult :=
  let r := select_period db pollId in
  match resp_error r with
  | Some msg => ([], Returned (Some msg))
  | None =>
      match resp_data r with
      | None => ([], Thrown)
      | Some period => ([DeleteVotes period], Returned (delete_votes_err db period))
      end
  end.

(** [deactivatePoll] *)
Definition deactivatePoll (db : AdminStore) (pollId : string)
  : list DbWrite * AdminResult :=
  ([DeactivatePoll pollId], Returned (deactivate_poll_err db pollId)).

(** ** Sample data *)

Definition poll_may : Poll := {|
  poll_id := "p1"; poll_title := "May vans"; month_year := "2024-05";
  is_active := true; created_by := None; poll_created_at := "2024-05-01"
|}.

Definition poll_june : Poll := {|
  poll_id := "p2"; poll_title := "June vans"; month_year := "2024-06";
  is_active := true; created_by := None; poll_created_at := "2024-06-01"
|}.

Definition van_a : Van := {|
  van_id := "A"; van_poll_id := "p1"; van_name := "Tacos";
  van_description := None; van_image_url := None; van_created_at := "2024-05-01"
|}.

Definition van_b : Van := {|
  van_id := "B"; van_poll_id := "p1"; van_name := "Burgers";
  van_description := None; van_image_url := None; van_created_at := "2024-05-02"
|}.

(** A session showing [poll_may] with two votes for A, the user's among them. *)
Definition voted_state : VotingState :=
  dispatch_all initialState
    [POLL_LOADED poll_may [van_a];
     COUNTS_LOADED {[ "A" := Int 2 ]};
     USER_VOTE_LOADED (Some "A")].

(** The same session with 2^53 votes for A. *)
Definition crowded_state : VotingState :=
  dispatch_all initialState
    [POLL_LOADED poll_may [van_a];
     COUNTS_LOADED {[ "A" := Int (2 ^ 53) ]}].

(** A store holding [poll_may] with both vans. *)
Definition store_ok : Store := {|
  active_poll := {| resp_data := Some poll_may; resp_error := None |};
  vans_for := fun _ => {| resp_data := Some [van_a; van_b]; resp_error := None |};
  counts_for := fun _ => {| resp_data := Some []; resp_error := None |};
  auth_user := None;
  vote_for := fun _ _ => None
|}.

(** The same store with the [vans] query failing. *)
Definition store_vans_down : Store := {|
  active_poll := {| resp_data := Some poll_may; resp_error := None |};
  vans_for := fun _ => {| resp_data := None; resp_error := Some "timeout" |};
  counts_for := fun _ => {| resp_data := Some []; resp_error := None |};
  auth_user := None;
  vote_for := fun _ _ => None
|}.

(** A store with a signed-in user who voted for B, and one counted vote. *)
Definition store_voted : Store := {|
  active_poll := {| resp_data := Some poll_may; resp_error := None |};
  vans_for := fun _ => {| resp_data := Some [van_a; van_b]; resp_error := None |};
  counts_for := fun _ =>
    {| resp_data := Some [ {| row_van_id := "B"; row_total_votes := 1 |} ];
       resp_error := None |};
  auth_user := Some "u1";
  vote_for := fun _ _ => Some "B"
|}.

(** The same store with the [vote_counts] query failing. *)
Definition store_counts_down : Store := {|
  active_poll := {| resp_data := Some poll_may; resp_error := None |};
  vans_for := fun _ => {| resp_data := Some [van_a; van_b]; resp_error := None |};
  counts_for := fun _ => {| resp_data := None; resp_error := Some "timeout" |};
  auth_user := Some "u1";
  vote_for := fun _ _ => Some "B"
|}.

(** A store without an active poll. *)
Definition store_no_poll : Store := {|
  active_poll := {| resp_data := None; resp_error := None |};
  vans_for := fun _ => {| resp_data := Some []; resp_error := None |};
  counts_for := fun _ => {| resp_data := Some []; resp_error := None |};
  auth_user := None;
  vote_for := fun _ _ => None
|}.

Definition never_cancelled : nat -> bool := fun _ => false.

(** A poll event, a vote event, then the late answer of the loader's first
    query. *)
Definition stale_projection_run : list Action :=
  [POLL_REPLACED poll_may [van_a]; COUNT_UPDATED "A" Plus1; NO_ACTIVE_POLL].

Definition rpc_transport_failure : Response RpcData :=
  {| resp_data := None; resp_error := Some "network down" |}.

Definition rpc_business_failure : Response RpcData :=
  {| resp_data := Some {| data_error := Some "already voted" |}; resp_error := None |}.

Definition rpc_success : Response RpcData :=
  {| resp_data := Some {| data_error := None |}; resp_error := None |}.

(** Counts whose exact percentages are 57.5 and 42.5. *)
Definition counts_23_17 : VoteCounts := {[ "A" := Int 23; "B" := Int 17 ]}.

(** Two votes for A and one for B. *)
Definition counts_2_1 : VoteCounts := {[ "A" := Int 2; "B" := Int 1 ]}.

(** Counts with an own property named like the prototype accessor. *)
Definition counts_proto : VoteCounts := {[ "__proto__" := Int 1; "A" := Int 1 ]}.

(** The rational denoted by a finite float of the Standard Library's
    [SpecFloat], used to compare [Binary64] with its IEEE 754 operations. *)
Definition SF2Q (f : spec_float) : Q :=
  match f with
  | S754_finite s m e =>
      ((if s then (-1) else 1) * inject_Z (Zpos m) * Binary64.pow2 e)%Q
  | _ => 0%Q
  end.

(** An integer as a float. *)
Definition Z2SF (n : positive) : spec_float := S754_finite false n 0.

(** [(n / total) * 100] computed by [SpecFloat] at binary64. *)
Definition SF_scaled_quotient (n total : positive) : spec_float :=
  SFmul 53 1024 (SFdiv 53 1024 (Z2SF n) (Z2SF total)) (Z2SF 100).

(** [a + b] computed by [SpecFloat] at binary64. *)
Definition SF_sum (a b : positive) : spec_float :=
  SFadd 53 1024 (Z2SF a) (Z2SF b).

Definition db_ok : AdminStore := {|
  deactivate_active_err := None;
  admin_user := Some "hr";
  insert_poll := fun _ _ _ => {| resp_data := Some poll_june; resp_error := None |};
  insert_vans_err := fun _ => None;
  select_period := fun _ => {| resp_data := Some "2024-05"; resp_error := None |};
  delete_votes_err := fun _ => None;
  deactivate_poll_err := fun _ => None
|}.

(** A store whose poll insert answers with neither a row nor an error. *)
Definition db_no_row : AdminStore := {|
  deactivate_active_err := None;
  admin_user := Some "hr";
  insert_poll := fun _ _ _ => {| resp_data := None; resp_error := None |};
  insert_vans_err := fun _ => None;
  select_period := fun _ => {| resp_data := Some "2024-05"; resp_error := None |};
  delete_votes_err := fun _ => None;
  deactivate_poll_err := fun _ => None
|}.

Definition new_van_tacos : NewVanInput :=
  {| nv_name := "Tacos"; nv_description := "Al pastor"; nv_image_url := None |}.

(** ** Reducer: frame properties *)

(** An action that leaves the tally (counts, percentages, total) alone. *)
Definition keeps_tally (a : Action) : Prop :=
  forall t, voteCounts (reducer t a) = voteCounts t /\
            percentages (reducer t a) = percentages t /\
            totalVotes (reducer t a) = totalVotes t.

(** An action that leaves the recorded user vote alone. *)
Definition keeps_user_vote (a : Action) : Prop :=
  forall t, userVanId (reducer t a) = userVanId t.
Lemma keeps_tally_SUBMITTING : keeps_tally SUBMITTING.
Proof. intros t. by cbn. Qed.

Lemma keeps_tally_VOTE_SUCCESS id : keeps_tally (VOTE_SUCCESS id).
Proof. intros t. by cbn. Qed.

Lemma keeps_tally_VOTE_ERROR msg : keeps_tally (VOTE_ERROR msg).
Proof. intros t. by cbn. Qed.

(** Whatever the RPC answers, no dispatch of [castVote] touches the tally. *)
Lemma castVote_keeps_tally vanId r : Forall keeps_tally (castVote vanId r).
Proof.
  unfold castVote.
  destruct (resp_error r) as [msg|]; [|destruct (truthy (embedded_error r))];
    repeat constructor;
    auto using keeps_tally_SUBMITTING, keeps_tally_VOTE_SUCCESS, keeps_tally_VOTE_ERROR.
Qed.

Lemma truthy_Some_nonempty msg : msg <> "" -> truthy (Some msg) = true.
Proof.
  intros Hne. cbn. destruct (String.eqb_spec msg ""); [contradiction | reflexivity].
Qed.

(** ** C5: poll replacement is a hard reset *)

(** C5. After [POLL_REPLACED], whatever the state before: no counts, no
    percentages, total zero, no recorded user vote, status idle. *)
Theorem poll_replaced_resets (s : VotingState) (p : Poll) (vs : list Van) :
  let s' := reducer s (POLL_REPLACED p vs) in
  voteCounts s' = ∅ /\ percentages s' = ∅ /\ totalVotes s' = Int 0 /\
  userVanId s' = None /\ status s' = idle.
Proof. cbn. repeat split. Qed.

(** ** C6: both failure channels of a submission *)

(** C6. A transport error with message [msg], and equally a business error
    [msg] carried in a successful answer, leave the session in the same
    state: status error, error message [msg], recorded user vote as before;
    neither dispatch of the failing submission changes the recorded user
    vote of the state it lands on. *)
Theorem castVote_failure (s : VotingState) (vanId msg : string) (r : Response RpcData) :
  resp_error r = Some msg \/
  (resp_error r = None /\ embedded_error r = Some msg /\ msg <> "") ->
  let s' := dispatch_all s (castVote vanId r) in
  s' = reducer (reducer s SUBMITTING) (VOTE_ERROR msg) /\
  status s' = error /\ error_msg s' = Some msg /\ userVanId s' = userVanId s /\
  Forall keeps_user_vote (castVote vanId r).
Proof.
  intros [Ht | (Hn & He & Hne)]; unfold castVote.
  - rewrite Ht. cbn. repeat split. by repeat constructor.
  - rewrite Hn, He, (truthy_Some_nonempty _ Hne). cbn. repeat split.
    by repeat constructor.
Qed.

Lemma castVote_failure_witness :
  (let s' := dispatch_all voted_state (castVote "B" rpc_transport_failure) in
   s' = reducer (reducer voted_state SUBMITTING) (VOTE_ERROR "network down") /\
   status s' = error /\ error_msg s' = Some "network down" /\
   userVanId s' = userVanId voted_state /\
   Forall keeps_user_vote (castVote "B" rpc_transport_failure)) /\
  (let s' := dispatch_all voted_state (castVote "B" rpc_business_failure) in
   s' = reducer (reducer voted_state SUBMITTING) (VOTE_ERROR "already voted") /\
   status s' = error /\ error_msg s' = Some "already voted" /\
   userVanId s' = userVanId voted_state /\
   Forall keeps_user_vote (castVote "B" rpc_business_failure)).
Proof.
  split.
  - apply (castVote_failure voted_state "B" "network down" rpc_transport_failure).
    left. reflexivity.
  - apply (castVote_failure voted_state "B" "already voted" rpc_business_failure).
    right. split; [reflexivity | split; [reflexivity | discriminate]].
Defined.

(** ** C7: a successful submission *)

(** C7. With no transport error and no embedded error, the submission ends
    with status voted and the chosen van recorded; counts, percentages and
    total are those of the state before, and no dispatch of the submission
    path, whatever the answer, changes them. *)
Theorem castVote_success (s : VotingState) (vanId : string) (r : Response RpcData) :
  resp_error r = None -> truthy (embedded_error r) = false ->
  let s' := dispatch_all s (castVote vanId r) in
  status s' = voted /\ userVanId s' = Some vanId /\
  voteCounts s' = voteCounts s /\ percentages s' = percentages s /\
  totalVotes s' = totalVotes s /\
  (forall r', Forall keeps_tally (castVote vanId r')).
Proof.
  intros Hn Hf. unfold castVote. rewrite Hn, Hf. cbn.
  repeat split. intros r'. apply castVote_keeps_tally.
Qed.

Lemma castVote_success_witness :
  let s' := dispatch_all voted_state (castVote "B" rpc_success) in
  status s' = voted /\ userVanId s' = Some "B" /\
  voteCounts s' = voteCounts voted_state /\ percentages s' = percentages voted_state /\
  totalVotes s' = totalVotes voted_state /\
  (forall r', Forall keeps_tally (castVote "B" r')).
Proof.
  apply (castVote_success voted_state "B" rpc_success); reflexivity.
Defined.

(** ** Binary64 rounding: error bounds *)

Module Binary64Facts.
Import Binary64.
Local Open Scope Q_scope.

Lemma pow2_pos k : 0 < pow2 k.
Proof. apply Qpower_0_lt. reflexivity. Qed.

Lemma pow2_mono j k : (j <= k)%Z -> pow2 j <= pow2 k.
Proof. intros H. apply Qpower_le_compat_l; [exact H | discriminate]. Qed.

Lemma pow2_plus j k : pow2 (j + k) == pow2 j * pow2 k.
Proof. apply Qpower_plus. discriminate. Qed.

Lemma pow2_Z k : (0 <= k)%Z -> pow2 k == inject_Z (2 ^ k).
Proof. intros H. symmetry. apply (Zpower_Qpower 2 k H). Qed.

Lemma pow2_minus j k : pow2 (j - k) == pow2 j / pow2 k.
Proof. apply Qpower_minus. discriminate. Qed.

Lemma Qdiv_le_cross a a' b b' :
  0 <= a' -> a' <= a -> 0 < b -> b <= b' -> a' / b' <= a / b.
Proof.
  intros Ha' Ha Hb Hb'.
  assert (Hb'0 : 0 < b') by lra.
  apply Qle_shift_div_l; [exact Hb|].
  assert (Hc : a' / b' * b' == a') by (field; lra).
  assert (Hc0 : 0 <= a' / b') by (apply Qle_shift_div_l; lra).
  set (c := a' / b') in *.
  nra.
Qed.

Lemma Qmake_as_div a b : a # b == inject_Z a / inject_Z (Zpos b).
Proof. apply Qmake_Qdiv. Qed.

(** [ilog2] is the floor of the binary logarithm. *)
Lemma ilog2_spec x : 0 < x -> pow2 (ilog2 x) <= x /\ x < pow2 (ilog2 x + 1).
Proof.
  intros Hx. destruct x as [a b].
  assert (Ha : (0 < a)%Z) by (unfold Qlt in Hx; cbn in Hx; lia).
  unfold ilog2. cbn [Qnum Qden].
  destruct (Z.log2_spec a Ha) as [Ha1 Ha2].
  destruct (Z.log2_spec (Zpos b) (Pos2Z.is_pos b)) as [Hb1 Hb2].
  pose proof (Z.log2_nonneg a) as Hla.
  pose proof (Z.log2_nonneg (Zpos b)) as Hlb.
  set (la := Z.log2 a) in *. set (lb := Z.log2 (Zpos b)) in *.
  assert (Qa1 : pow2 la <= inject_Z a)
    by (rewrite pow2_Z by lia; rewrite <- Zle_Qle; exact Ha1).
  assert (Qa2 : inject_Z a < pow2 (la + 1))
    by (rewrite pow2_Z by lia; rewrite <- Zlt_Qlt; lia).
  assert (Qb1 : pow2 lb <= inject_Z (Zpos b))
    by (rewrite pow2_Z by lia; rewrite <- Zle_Qle; exact Hb1).
  assert (Qb2 : inject_Z (Zpos b) < pow2 (lb + 1))
    by (rewrite pow2_Z by lia; rewrite <- Zlt_Qlt; lia).
  assert (Qb0 : 0 < inject_Z (Zpos b)) by (rewrite <- (Zlt_Qlt 0); lia).
  pose proof (pow2_pos la). pose proof (pow2_pos lb). pose proof (pow2_pos (lb + 1)).
  destruct (Qle_bool (pow2 (la - lb)) (a # b)) eqn:E.
  - split; [by apply Qle_bool_iff|].
    replace (la - lb + 1)%Z with ((la + 1) - lb)%Z by lia.
    rewrite pow2_minus, Qmake_as_div.
    apply Qlt_shift_div_l; [assumption|].
    assert (Hc : inject_Z a / inject_Z (Zpos b) * inject_Z (Zpos b) == inject_Z a)
      by (field; lra).
    assert (Hc0 : 0 <= inject_Z a / inject_Z (Zpos b))
      by (apply Qle_shift_div_l; [assumption|]; rewrite Qmult_0_l, <- (Zle_Qle 0); lia).
    set (c := inject_Z a / inject_Z (Zpos b)) in *.
    nra.
  - split.
    + replace (la - lb - 1)%Z with (la - (lb + 1))%Z by lia.
      rewrite pow2_minus, Qmake_as_div.
      apply Qdiv_le_cross; lra.
    + replace (la - lb - 1 + 1)%Z with (la - lb)%Z by lia.
      apply Qnot_le_lt. intros Hle. apply Qle_bool_iff in Hle. congruence.
Qed.

Lemma ilog2_lt x j : 0 < x -> x < pow2 j -> (ilog2 x < j)%Z.
Proof.
  intros Hx Hj. destruct (ilog2_spec x Hx) as [Hl _].
  apply (Qpower_lt_compat_l_inv 2); [|reflexivity].
  fold (pow2 (ilog2 x)). fold (pow2 j). lra.
Qed.

(** [rne] is within one half of its argument. *)
Lemma rne_error y :
  y - (1 # 2) <= inject_Z (rne y) /\ inject_Z (rne y) <= y + (1 # 2).
Proof.
  unfold rne. pose proof (Qfloor_le y) as Hf1. pose proof (Qlt_floor y) as Hf2.
  rewrite inject_Z_plus in Hf2. change (inject_Z 1) with 1 in Hf2.
  destruct (Qcompare_spec (y - inject_Z (Qfloor y)) (1 # 2)) as [E|E|E];
    [destruct (Z.even (Qfloor y))| |];
    rewrite ?inject_Z_plus; change (inject_Z 1) with 1; lra.
Qed.

(** Absolute error of rounding a value below [2^j]. *)
Lemma RN_pos_error x j :
  0 < x -> x < pow2 j -> (-1021 <= j)%Z ->
  x - pow2 (j - 54) <= RN_pos x /\ RN_pos x <= x + pow2 (j - 54).
Proof.
  intros Hx Hj Hrange. unfold RN_pos.
  pose proof (ilog2_lt x j Hx Hj) as Hl.
  set (e := Z.max (ilog2 x - 52) (-1074)).
  assert (He : (e <= j - 53)%Z) by lia.
  pose proof (pow2_pos e) as Hpe.
  destruct (rne_error (x / pow2 e)) as [H1 H2].
  set (m := inject_Z (rne (x / pow2 e))) in *.
  assert (Hx' : x / pow2 e * pow2 e == x) by (field; lra).
  assert (Hhalf : pow2 e == 2 * pow2 (e - 1)).
  { replace e with ((e - 1) + 1)%Z at 1 by lia. rewrite pow2_plus.
    change (pow2 1) with 2. ring. }
  pose proof (pow2_mono (e - 1) (j - 54) ltac:(lia)) as Hm.
  pose proof (pow2_pos (e - 1)).
  set (y := x / pow2 e) in *.
  split; nra.
Qed.

Lemma rne_nonneg y : 0 <= y -> (0 <= rne y)%Z.
Proof.
  intros Hy. pose proof (Qfloor_resp_le 0 y Hy) as Hf. change (Qfloor 0) with 0%Z in Hf.
  unfold rne. destruct (Qcompare _ _); [destruct (Z.even _)| |]; lia.
Qed.

Lemma RN_nonneg x : 0 <= x -> 0 <= RN x.
Proof.
  intros Hx. unfold RN. destruct (Qcompare_spec x 0) as [E|E|E]; [lra | lra |].
  unfold RN_pos. set (e := Z.max _ _).
  pose proof (pow2_pos e) as Hpe.
  apply Qmult_le_0_compat; [|lra].
  rewrite <- (Zle_Qle 0). apply rne_nonneg.
  apply Qle_shift_div_l; lra.
Qed.

Lemma RN_error x j :
  0 <= x -> x < pow2 j -> (-1021 <= j)%Z ->
  x - pow2 (j - 54) <= RN x /\ RN x <= x + pow2 (j - 54).
Proof.
  intros Hx Hj Hrange. pose proof (pow2_pos (j - 54)).
  unfold RN. destruct (Qcompare_spec x 0) as [E|E|E]; [lra | lra |].
  by apply RN_pos_error.
Qed.

(** The double-precision value of [(n / total) * 100] is within
    [164 / 2^53] of the exact [100 n / total]. *)
Lemma scaled_quotient_error (n total : Z) :
  (0 <= n <= total)%Z -> (0 < total)%Z ->
  let x := inject_Z n / inject_Z total in
  let r := fmul (fdiv (inject_Z n) (inject_Z total)) (inject_Z 100) in
  100 * x - (164 # 9007199254740992) <= r /\ r <= 100 * x + (164 # 9007199254740992).
Proof.
  intros Hn Ht x r. subst r. unfold fmul, fdiv. fold x.
  assert (Ht' : 0 < inject_Z total) by (rewrite <- (Zlt_Qlt 0); lia).
  assert (Hn0 : 0 <= inject_Z n) by (rewrite <- (Zle_Qle 0); lia).
  assert (Hnt : inject_Z n <= inject_Z total) by (rewrite <- Zle_Qle; lia).
  assert (Hx0 : 0 <= x) by (apply Qle_shift_div_l; lra).
  assert (Hx1 : x <= 1) by (apply Qle_shift_div_r; lra).
  destruct (RN_error x 1 Hx0) as [Hq1 Hq2]; [change (pow2 1) with 2; lra | lia |].
  change (pow2 (1 - 54)) with (1 # 9007199254740992) in Hq1, Hq2.
  pose proof (RN_nonneg x Hx0) as Hq0.
  set (q := RN x) in *.
  destruct (RN_error (q * inject_Z 100) 7) as [Hr1 Hr2].
  - change (inject_Z 100) with 100. nra.
  - change (pow2 7) with 128. change (inject_Z 100) with 100. lra.
  - lia.
  - change (pow2 (7 - 54)) with (1 # 140737488355328) in Hr1, Hr2.
    change (inject_Z 100) with 100 in *. split; lra.
Qed.

(** [Math.round] of that value is a nearest integer to [100 n / total],
    for totals below [2^44]. *)
Lemma percent_nearest (n total : Z) :
  (0 <= n <= total)%Z -> (0 < total < 2 ^ 44)%Z ->
  (- total <= 2 * (percent total n * total - 100 * n) <= total)%Z.
Proof.
  intros Hn Ht. unfold percent.
  destruct (Z.eqb_spec total 0) as [E|_]; [lia|].
  destruct (scaled_quotient_error n total Hn ltac:(lia)) as [Hr1 Hr2].
  cbv zeta in Hr1, Hr2. unfold Math_round.
  set (r := fmul _ _) in *.
  pose proof (Qfloor_le (r + (1 # 2))) as Hp1.
  pose proof (Qlt_floor (r + (1 # 2))) as Hp2.
  set (p := Qfloor (r + (1 # 2))) in *.
  rewrite inject_Z_plus in Hp2. change (inject_Z 1) with 1 in Hp2.
  assert (Ht0 : 0 < inject_Z total) by (rewrite <- (Zlt_Qlt 0); lia).
  assert (Ht1 : inject_Z total <= 17592186044415)
    by (change 17592186044415 with (inject_Z (2 ^ 44 - 1)); rewrite <- Zle_Qle; lia).
  assert (Hx : inject_Z n / inject_Z total * inject_Z total == inject_Z n)
    by (field; lra).
  set (x := inject_Z n / inject_Z total) in *.
  set (t := inject_Z total) in *. set (P := inject_Z p) in *.
  set (nn := inject_Z n) in *.
  assert (Hup : 2 * (P * t) < 200 * nn + t + 1) by nra.
  assert (Hlo : 200 * nn - t - 1 < 2 * (P * t)) by nra.
  assert (Zup : (2 * (p * total) < 200 * n + total + 1)%Z).
  { rewrite Zlt_Qlt. rewrite !inject_Z_plus, !inject_Z_mult.
    fold t P nn. change (inject_Z 2) with 2. change (inject_Z 200) with 200.
    change (inject_Z 1) with 1. exact Hup. }
  assert (Zlo : (200 * n - total - 1 < 2 * (p * total))%Z).
  { rewrite Zlt_Qlt. unfold Z.sub.
    rewrite ?inject_Z_plus, ?inject_Z_mult, ?inject_Z_opp, ?inject_Z_mult.
    fold t P nn. change (inject_Z 2) with 2. change (inject_Z 200) with 200.
    change (inject_Z 1) with 1. lra. }
  lia.
Qed.
End Binary64Facts.

(** ** Binary64 addition of integers *)

Lemma rne_inject k : Binary64.rne (inject_Z k) = k.
Proof.
  unfold Binary64.rne. rewrite Qfloor_Z.
  destruct (Qcompare_spec (inject_Z k - inject_Z k) (1 # 2)) as [E|E|E];
    [exfalso; lra | reflexivity | exfalso; lra].
Qed.

Lemma rne_comp x y : (x == y)%Q -> Binary64.rne x = Binary64.rne y.
Proof.
  intros H. unfold Binary64.rne.
  assert (Hf : Qfloor x = Qfloor y) by (by apply Qfloor_comp).
  rewrite Hf.
  assert (Hc : Qcompare (x - inject_Z (Qfloor y)) (1 # 2)
             = Qcompare (y - inject_Z (Qfloor y)) (1 # 2)).
  { apply Qcompare_comp; [by rewrite H | reflexivity]. }
  by rewrite Hc.
Qed.

(** Integers up to 2^53 are doubles. *)
Lemma RN_pos_int z :
  0 < z <= 2 ^ 53 -> (Binary64.RN_pos (inject_Z z) == inject_Z z)%Q.
Proof.
  intros Hz. destruct (Z.eq_dec z (2 ^ 53)) as [->|Hne]; [by vm_compute|].
  assert (Hx0 : (0 < inject_Z z)%Q) by (rewrite <- (Zlt_Qlt 0); lia).
  destruct (Binary64Facts.ilog2_spec _ Hx0) as [Hl Hu].
  assert (Hl53 : Binary64.ilog2 (inject_Z z) < 53).
  { apply Binary64Facts.ilog2_lt; [exact Hx0|].
    change (Binary64.pow2 53) with (inject_Z (2 ^ 53)). rewrite <- Zlt_Qlt. lia. }
  assert (Hl0 : 0 <= Binary64.ilog2 (inject_Z z)).
  { assert (0 < Binary64.ilog2 (inject_Z z) + 1); [|lia].
    apply (Qpower_lt_compat_l_inv 2); [|reflexivity].
    fold (Binary64.pow2 (Binary64.ilog2 (inject_Z z) + 1)).
    change (2 ^ 0)%Q with (inject_Z 1).
    apply Qle_lt_trans with (inject_Z z); [by rewrite <- Zle_Qle; lia | exact Hu]. }
  unfold Binary64.RN_pos.
  set (l := Binary64.ilog2 (inject_Z z)) in *.
  replace (Z.max (l - 52) (-1074)) with (- (52 - l)) by lia.
  set (k := 52 - l). assert (Hk : 0 <= k) by lia.
  assert (Hpk : (Binary64.pow2 (- k) == / inject_Z (2 ^ k))%Q).
  { unfold Binary64.pow2. rewrite Qpower_opp. apply Qinv_comp.
    symmetry. apply (Zpower_Qpower 2 k Hk). }
  assert (Hk0 : (0 < inject_Z (2 ^ k))%Q) by (rewrite <- (Zlt_Qlt 0); lia).
  assert (Hq : (inject_Z z / Binary64.pow2 (- k) == inject_Z (z * 2 ^ k))%Q).
  { rewrite Hpk, inject_Z_mult. field. lra. }
  rewrite (rne_comp _ _ Hq), rne_inject, Hpk, inject_Z_mult. field. lra.
Qed.

Lemma round_int_exact z : 0 <= z <= 2 ^ 53 -> Binary64.round_int z = z.
Proof.
  intros Hz. unfold Binary64.round_int, Binary64.RN.
  destruct (Z.eq_dec z 0) as [->|Hne]; [reflexivity|].
  assert (Hx0 : (0 < inject_Z z)%Q) by (rewrite <- (Zlt_Qlt 0); lia).
  destruct (Qcompare_spec (inject_Z z) 0) as [E|E|E]; [exfalso; lra | exfalso; lra |].
  rewrite (Qfloor_comp _ _ (RN_pos_int z ltac:(lia))). apply Qfloor_Z.
Qed.

(** An increment below 2^53 and a decrement up to 2^53 are exact. *)
Lemma js_add_delta c d :
  0 <= c -> c + delta_value d <= 2 ^ 53 ->
  js_add (Int c) (Int (delta_value d)) = Int (c + delta_value d).
Proof.
  intros Hc Hb. unfold js_add. f_equal.
  destruct (Z.eq_dec (c + delta_value d) (-1)) as [->|Hne]; [reflexivity|].
  apply round_int_exact. destruct d; cbn in *; lia.
Qed.

(** At 2^53 an increment is absorbed. *)
Lemma js_add_absorbed : js_add (Int (2 ^ 53)) (Int 1) = Int (2 ^ 53).
Proof. vm_compute. reflexivity. Qed.

(** ** Sums of counts *)

Lemma sum_values_empty : sum_values ∅ = Int 0.
Proof. reflexivity. Qed.

Lemma sum_add_swap y a b : sum_add (sum_add y a) b = sum_add (sum_add y b) a.
Proof. destruct y, a, b; cbn; try reflexivity. f_equal. lia. Qed.

Lemma sum_values_insert (m : VoteCounts) i x :
  m !! i = None -> sum_values (<[i := x]> m) = sum_add (sum_values m) x.
Proof.
  intros Hi. unfold sum_values.
  rewrite map_fold_insert_L; [reflexivity | | exact Hi].
  intros. apply sum_add_swap.
Qed.

(** Replacing or adding the entry of [i] in counts that add up to [t]. *)
Lemma sum_values_insert_int (m : VoteCounts) i t c x :
  sum_values m = Int t ->
  (m !! i = Some (Int c) \/ (m !! i = None /\ c = 0)) ->
  sum_values (<[i := Int x]> m) = Int (t - c + x).
Proof.
  intros Ht [Hi | [Hi ->]].
  - rewrite <- (insert_delete_eq m i (Int x)).
    rewrite <- (insert_delete_id m i (Int c) Hi) in Ht.
    rewrite sum_values_insert in Ht |- * by apply lookup_delete_eq.
    destruct (sum_values (delete i m)) as [u|]; cbn in *; [|discriminate].
    injection Ht as <-. f_equal. lia.
  - rewrite sum_values_insert by exact Hi. rewrite Ht. cbn. f_equal. lia.
Qed.

Lemma nonneg_Int n : nonneg n -> exists z, n = Int z /\ 0 <= z.
Proof. destruct n as [z|]; [by exists z | done]. Qed.

Lemma nonneg_counts_sum (m : VoteCounts) :
  nonneg_counts m ->
  exists t, sum_values m = Int t /\ 0 <= t /\
            forall i n, m !! i = Some n -> exists z, n = Int z /\ 0 <= z <= t.
Proof.
  induction m as [|i x m Hi IH] using map_ind; intros Hm.
  - exists 0. split; [reflexivity|]. split; [lia|].
    intros i n H. by rewrite lookup_empty in H.
  - apply map_Forall_insert in Hm as [Hx Hm]; [|exact Hi].
    destruct (IH Hm) as (t & Ht & H0 & Hle).
    destruct (nonneg_Int _ Hx) as (z & -> & Hz).
    exists (t + z). rewrite (sum_values_insert _ _ _ Hi), Ht.
    split; [reflexivity|]. split; [lia|]. intros j n Hj.
    destruct (decide (i = j)) as [->|Hne].
    + rewrite lookup_insert_eq in Hj. injection Hj as <-. exists z. split; [done | lia].
    + rewrite lookup_insert_ne in Hj by exact Hne.
      destruct (Hle _ _ Hj) as (w & -> & Hw). exists w. split; [done | lia].
Qed.

Lemma sum_values_spec_total (m : VoteCounts) :
  nonneg_counts m -> sum_values m = Int (spec_total m).
Proof.
  intros Hm. unfold sum_values, spec_total. rewrite map_fold_foldr.
  apply map_Forall_to_list in Hm.
  induction Hm as [|[k n] l Hn _ IH]; cbn; [reflexivity|].
  rewrite IH. cbn in Hn. destruct (nonneg_Int _ Hn) as (z & -> & _). cbn.
  f_equal. lia.
Qed.

(** ** The percentages as a map *)

Lemma js_assign_lookup (o : gmap string JsNum) key v id :
  js_assign o key v !! id =
  if String.eqb key "__proto__" then o !! id
  else if decide (key = id) then Some v else o !! id.
Proof.
  unfold js_assign. destruct (String.eqb key "__proto__"); [reflexivity|].
  destruct (decide (key = id)) as [->|Hne];
    [apply lookup_insert_eq | by apply lookup_insert_ne].
Qed.

Lemma js_assign_swap (o : gmap string JsNum) k1 v1 k2 v2 :
  k1 <> k2 -> js_assign (js_assign o k2 v2) k1 v1 = js_assign (js_assign o k1 v1) k2 v2.
Proof.
  intros Hne. unfold js_assign.
  destruct (String.eqb k1 "__proto__"), (String.eqb k2 "__proto__"); try reflexivity.
  by apply insert_insert_ne.
Qed.

(** A loop of assignments [target[id] = f(n)] over the own properties of a
    map gives every key but ["__proto__"] its value. *)
Lemma assign_fold_lookup (f : JsNum -> JsNum) (m : gmap string JsNum) id :
  map_fold (fun k n acc => js_assign acc k (f n)) ∅ m !! id =
  if String.eqb id "__proto__" then None else f <$> m !! id.
Proof.
  induction m as [|i x m Hi IH] using map_ind.
  - rewrite map_fold_empty, !lookup_empty. by destruct (String.eqb _ _).
  - rewrite map_fold_insert_L; [|intros; by apply js_assign_swap | exact Hi].
    rewrite js_assign_lookup, IH.
    destruct (String.eqb_spec i "__proto__") as [->|Hi'].
    + destruct (String.eqb_spec id "__proto__") as [->|Hid]; [done|].
      by rewrite lookup_insert_ne.
    + destruct (decide (i = id)) as [->|Hne].
      * destruct (String.eqb_spec id "__proto__"); [contradiction|].
        by rewrite lookup_insert_eq.
      * by rewrite lookup_insert_ne.
Qed.

Lemma derivePercentages_lookup (counts : VoteCounts) id :
  (derivePercentages counts).1 !! id =
  if String.eqb id "__proto__" then None
  else js_percent (sum_values counts) <$> counts !! id.
Proof. apply (assign_fold_lookup (js_percent (sum_values counts))). Qed.

Lemma derivePercentages_total (counts : VoteCounts) :
  (derivePercentages counts).2 = sum_values counts.
Proof. reflexivity. Qed.

Lemma derivePercentages_empty : derivePercentages ∅ = (∅, Int 0).
Proof. reflexivity. Qed.

(** ** Count deltas *)

Lemma voteCounts_COUNT_UPDATED s id d :
  voteCounts (reducer s (COUNT_UPDATED id d)) =
  <[id := Math_max0 (plus_delta (js_get (voteCounts s) id) d)]> (voteCounts s).
Proof. reflexivity. Qed.

Lemma totalVotes_COUNT_UPDATED s id d :
  totalVotes (reducer s (COUNT_UPDATED id d)) =
  sum_values (voteCounts (reducer s (COUNT_UPDATED id d))).
Proof. reflexivity. Qed.

Lemma poll_COUNT_UPDATED s id d : poll (reducer s (COUNT_UPDATED id d)) = poll s.
Proof. reflexivity. Qed.

(** On non-negative counts, a key whose read gives a number reads its own
    non-negative count, or zero when it has no entry. *)
Lemma count_of_reads (counts : VoteCounts) id :
  nonneg_counts counts -> reads_number counts id ->
  exists c, count_of counts id = Some (Int c) /\ 0 <= c /\
            (counts !! id = Some (Int c) \/ (counts !! id = None /\ c = 0)).
Proof.
  intros Hnn Hr. unfold count_of, js_get.
  destruct (counts !! id) as [n|] eqn:E.
  - destruct (nonneg_Int _ (Hnn _ _ E)) as (z & -> & Hz). exists z. by repeat split; auto.
  - destruct Hr as [[? H] | Hr]; [rewrite E in H; discriminate|].
    rewrite bool_decide_eq_false_2 by exact Hr. exists 0. by repeat split; auto.
Qed.

(** The count written by a delta, for a key that reads a number. *)
Lemma bumped_number (counts : VoteCounts) id d c :
  count_of counts id = Some (Int c) ->
  exists z, Math_max0 (plus_delta (js_get counts id) d) = Int (Z.max 0 z) /\
            (0 <= c -> c + delta_value d <= 2 ^ 53 -> z = c + delta_value d).
Proof.
  unfold count_of. destruct (js_get counts id) as [n| |]; intros [= E]; subst.
  - exists (Binary64.round_int (c + delta_value d)). split; [reflexivity|].
    intros Hc Hb. pose proof (js_add_delta c d Hc Hb) as H. by injection H.
  - exists (Binary64.round_int (0 + delta_value d)). split; [reflexivity|].
    intros Hc Hb. pose proof (js_add_delta 0 d Hc Hb) as H. by injection H.
Qed.

(** C8. A vote-created delta for the id "constructor", which has no entry,
    on a session whose only count is 2: the reducer reads the inherited
    [Object.prototype.constructor] instead of a missing count, and writes
    [NaN]; the counts are no longer all non-negative, and the total and the
    percentage of A are [NaN] as well. *)
Theorem count_updated_inherited_name_not_nonneg :
  let s := voted_state in
  let s' := reducer s (COUNT_UPDATED "constructor" Plus1) in
  nonneg_counts (voteCounts s) /\
  voteCounts s !! "constructor" = None /\
  voteCounts s' !! "constructor" = Some NaN /\
  ~ nonneg_counts (voteCounts s') /\
  totalVotes s' = NaN /\ percentages s' !! "A" = Some NaN.
Proof.
  cbv zeta.
  assert (H : voteCounts (reducer voted_state (COUNT_UPDATED "constructor" Plus1))
              !! "constructor" = Some NaN) by (vm_compute; reflexivity).
  split; [apply map_Forall_singleton; cbn; lia|].
  split; [vm_compute; reflexivity|].
  split; [exact H|].
  split; [intros Hnn; exact (Hnn _ _ H)|].
  split; vm_compute; reflexivity.
Qed.

(** C9, as the code has it. On non-negative counts, for an id whose count
    is below 2^53, or which has no entry and does not bear the name of a
    member of [Object.prototype]: a vote-created delta followed by a
    vote-removed delta gives back the count of the id (read as the reducer
    reads it) and the entry of every other van; when the id had an entry the
    whole mapping is the one before. *)
Theorem created_then_removed (s : VotingState) (id : string) :
  nonneg_counts (voteCounts s) ->
  reads_number (voteCounts s) id ->
  (forall c, voteCounts s !! id = Some (Int c) -> c < 2 ^ 53) ->
  let s' := reducer (reducer s (COUNT_UPDATED id Plus1)) (COUNT_UPDATED id Minus1) in
  count_of (voteCounts s') id = count_of (voteCounts s) id /\
  (forall k, k <> id -> voteCounts s' !! k = voteCounts s !! k) /\
  (is_Some (voteCounts s !! id) -> voteCounts s' = voteCounts s).
Proof.
  intros Hs Hr Hb s'. subst s'. rewrite !voteCounts_COUNT_UPDATED.
  destruct (count_of_reads _ _ Hs Hr) as (c & Hc & Hc0 & Hown).
  assert (Hc53 : c < 2 ^ 53).
  { destruct Hown as [E | [_ ->]]; [exact (Hb _ E) | reflexivity]. }
  destruct (bumped_number _ id Plus1 c Hc) as (z1 & E1 & Hz1).
  rewrite E1, (Hz1 Hc0) by (cbn; lia). cbn [delta_value].
  replace (Z.max 0 (c + 1)) with (c + 1) by lia.
  assert (Hmid : count_of (<[id := Int (c + 1)]> (voteCounts s)) id = Some (Int (c + 1))).
  { unfold count_of, js_get. by rewrite lookup_insert_eq. }
  destruct (bumped_number _ id Minus1 (c + 1) Hmid) as (z2 & E2 & Hz2).
  rewrite E2, Hz2 by (cbn; lia). cbn [delta_value].
  replace (Z.max 0 (c + 1 + -1)) with c by lia.
  rewrite insert_insert_eq.
  split; [|split].
  - rewrite Hc. unfold count_of, js_get. by rewrite lookup_insert_eq.
  - intros k Hk. by rewrite lookup_insert_ne.
  - intros [n E]. apply insert_id. destruct Hown as [E' | [E' _]]; congruence.
Qed.

Lemma created_then_removed_witness :
  let s' := reducer (reducer voted_state (COUNT_UPDATED "A" Plus1))
                    (COUNT_UPDATED "A" Minus1) in
  count_of (voteCounts s') "A" = count_of (voteCounts voted_state) "A" /\
  (forall k, k <> "A" -> voteCounts s' !! k = voteCounts voted_state !! k) /\
  (is_Some (voteCounts voted_state !! "A") -> voteCounts s' = voteCounts voted_state).
Proof.
  apply (created_then_removed voted_state "A").
  - apply map_Forall_singleton. cbn. lia.
  - left. by eexists.
  - intros c H. vm_compute in H. injection H as <-. reflexivity.
Defined.

(** C9, as stated, fails at a count of 2^53: the increment is absorbed by
    the rounding of the addition, the decrement is exact, and the count of A
    ends at 2^53 - 1. *)
Lemma created_then_removed_absorbed :
  let s := crowded_state in
  let s' := reducer (reducer s (COUNT_UPDATED "A" Plus1)) (COUNT_UPDATED "A" Minus1) in
  nonneg_counts (voteCounts s) /\
  voteCounts s !! "A" = Some (Int (2 ^ 53)) /\
  voteCounts (reducer s (COUNT_UPDATED "A" Plus1)) !! "A" = Some (Int (2 ^ 53)) /\
  voteCounts s' !! "A" = Some (Int (2 ^ 53 - 1)) /\
  voteCounts s' !! "A" <> voteCounts s !! "A".
Proof.
  cbv zeta.
  split; [apply map_Forall_singleton; cbn; lia|].
  split; [vm_compute; reflexivity|].
  split; [vm_compute; reflexivity|].
  split; [vm_compute; reflexivity|].
  intros H. vm_compute in H. discriminate H.
Qed.

(** C10. Deltas for the id "toString", which has no entry: the reducer does
    not read the missing count as zero but finds the inherited
    [Object.prototype.toString]; the increment enters the id with [NaN], not
    1, and the decrement with [NaN], not 0. *)
Theorem count_updated_unknown_inherited_name :
  let s := voted_state in
  voteCounts s !! "toString" = None /\
  voteCounts (reducer s (COUNT_UPDATED "toString" Plus1)) !! "toString" = Some NaN /\
  voteCounts (reducer s (COUNT_UPDATED "toString" Minus1)) !! "toString" = Some NaN /\
  voteCounts (reducer s (COUNT_UPDATED "toString" Plus1)) <> <["toString" := Int 1]> (voteCounts s) /\
  voteCounts (reducer s (COUNT_UPDATED "toString" Minus1)) <> <["toString" := Int 0]> (voteCounts s).
Proof.
  cbv zeta.
  split; [vm_compute; reflexivity|].
  split; [vm_compute; reflexivity|].
  split; [vm_compute; reflexivity|].
  split; intros H; apply (f_equal (fun m => m !! "toString")) in H;
    vm_compute in H; discriminate H.
Qed.

(** ** Option-list changes *)

(** What the [vans] handler does whenever a poll is displayed and the
    re-fetch answers: one [POLL_REPLACED] carrying the displayed poll. *)
Lemma handle_vans_change_eq st s p vs :
  poll s = Some p -> resp_data (vans_for st (poll_id p)) = Some vs ->
  handle_vans_change st s = reducer s (POLL_REPLACED p vs).
Proof.
  intros Hp Hv. unfold handle_vans_change, on_vans_change. by rewrite Hp, Hv.
Qed.

(** The poll and the new list are in place afterwards. *)
Lemma handle_vans_change_poll_vans st s p vs :
  poll s = Some p -> resp_data (vans_for st (poll_id p)) = Some vs ->
  poll (handle_vans_change st s) = Some p /\ vans (handle_vans_change st s) = vs.
Proof.
  intros Hp Hv. by rewrite (handle_vans_change_eq _ _ _ _ Hp Hv).
Qed.

(** C1. The handler for a change on [vans], run on a session that shows
    [poll_may] with two votes for A: the poll stays and the list becomes the
    re-fetched one, but counts, percentages, total, the user's vote and the
    status are reset, where the handler's comment says the counts are
    preserved. *)
Theorem vans_change_resets_tally :
  let s := voted_state in
  let s' := handle_vans_change store_ok s in
  poll s' = poll s /\ vans s' = [van_a; van_b] /\
  voteCounts s = {[ "A" := Int 2 ]} /\ voteCounts s' = ∅ /\
  percentages s = {[ "A" := Int 100 ]} /\ percentages s' = ∅ /\
  totalVotes s = Int 2 /\ totalVotes s' = Int 0 /\
  userVanId s = Some "A" /\ userVanId s' = None /\
  voteCounts s' <> voteCounts s.
Proof.
  cbv zeta.
  repeat (split; [vm_compute; reflexivity|]).
  intros H. apply (f_equal (fun m => m !! "A")) in H. vm_compute in H. discriminate H.
Qed.

(** ** Bootstrap with a failing options query *)

(** When the poll query answers with a poll and the [vans] query fails, the
    loader dispatches nothing at all. *)
Lemma bootstrap_vans_error st cancelled p msg :
  resp_error (active_poll st) = None -> resp_data (active_poll st) = Some p ->
  resp_error (vans_for st (poll_id p)) = Some msg ->
  bootstrap st cancelled = [].
Proof.
  intros He Hd Hv. unfold bootstrap. rewrite He, Hd, Hv.
  destruct (cancelled 1%nat), (cancelled 2%nat); reflexivity.
Qed.

(** C2. Bootstrap against a store whose poll query returns [poll_may] and
    whose [vans] query fails: no action is dispatched, so the session keeps
    its initial state, with no poll and the poll still marked as loading. *)
Theorem bootstrap_vans_failure_blocks_poll :
  resp_data (active_poll store_vans_down) = Some poll_may /\
  resp_error (active_poll store_vans_down) = None /\
  resp_error (vans_for store_vans_down (poll_id poll_may)) = Some "timeout" /\
  bootstrap store_vans_down never_cancelled = [] /\
  let s' := dispatch_all initialState (bootstrap store_vans_down never_cancelled) in
  s' = initialState /\ poll s' = None /\ isLoadingPoll s' = true.
Proof. cbv zeta. repeat split. Qed.

(** The sibling path: with the same poll and a [vans] query that answers,
    the poll is displayed. *)
Lemma bootstrap_vans_ok_shows_poll :
  let s' := dispatch_all initialState (bootstrap store_ok never_cancelled) in
  poll s' = Some poll_may /\ vans s' = [van_a; van_b] /\ isLoadingPoll s' = false.
Proof. cbv zeta. repeat split. Qed.

(** ** The projection invariant *)

Lemma projection_ok_initial : projection_ok initialState.
Proof. unfold projection_ok. vm_compute. reflexivity. Qed.

(** Every action but [NO_ACTIVE_POLL] keeps percentages and total equal to
    the aggregation of the counts. *)
Lemma projection_ok_step s a :
  a <> NO_ACTIVE_POLL -> projection_ok s -> projection_ok (reducer s a).
Proof.
  unfold projection_ok. intros Ha Hs.
  destruct a; cbn; try exact Hs; try contradiction.
  - reflexivity.
  - reflexivity.
  - by rewrite derivePercentages_empty.
Qed.

(** [NO_ACTIVE_POLL] keeps the invariant only from a state whose percentages
    and total are already those of the empty mapping. *)
Lemma projection_ok_NO_ACTIVE_POLL s :
  projection_ok (reducer s NO_ACTIVE_POLL) <-> percentages s = ∅ /\ totalVotes s = Int 0.
Proof.
  unfold projection_ok. cbn. rewrite derivePercentages_empty. split.
  - intros H. by inversion H.
  - intros [-> ->]. reflexivity.
Qed.

(** Along any run without [NO_ACTIVE_POLL] the invariant is kept. *)
Lemma projection_ok_run acts :
  Forall (fun a => a <> NO_ACTIVE_POLL) acts ->
  forall s, projection_ok s -> projection_ok (dispatch_all s acts).
Proof.
  induction 1 as [|a acts Ha _ IH]; intros s Hs; [exact Hs|].
  cbn. apply IH. by apply projection_ok_step.
Qed.

Lemma stale_projection_run_reachable :
  reachable (dispatch_all initialState stale_projection_run).
Proof. repeat constructor. Qed.

(** C3. After a poll event, a vote for A and then [NO_ACTIVE_POLL], a state
    reachable from the initial one, the counts are empty while the
    percentages still say A: 100 and the total still says 1: they are not the
    aggregation of the counts of that state. *)
Theorem no_active_poll_leaves_stale_projection :
  let s := dispatch_all initialState stale_projection_run in
  reachable s /\
  voteCounts s = ∅ /\ percentages s = {[ "A" := Int 100 ]} /\ totalVotes s = Int 1 /\
  derivePercentages (voteCounts s) = (∅, Int 0) /\
  ~ projection_ok s.
Proof.
  cbv zeta. split; [exact stale_projection_run_reachable|].
  repeat (split; [vm_compute; reflexivity|]).
  unfold projection_ok. intros H. apply (f_equal snd) in H.
  vm_compute in H. discriminate H.
Qed.

(** ** Agreement with the Standard Library's IEEE 754 operations *)

(** On the quotients used below, [Binary64] computes the value that
    [SpecFloat]'s binary64 division and multiplication compute. *)
Lemma Binary64_agrees_with_SpecFloat :
  Forall (fun '(n, t) =>
            Qeq_bool (SF2Q (SF_scaled_quotient n t))
                     (Binary64.fmul (Binary64.fdiv (inject_Z (Zpos n)) (inject_Z (Zpos t)))
                                    (inject_Z 100)) = true)
         [(23, 40); (17, 40); (2, 3); (1, 3); (57, 200); (1, 8); (1, 7); (3, 7)]%positive.
Proof. repeat constructor. Qed.

(** The same for the sums of integers around 2^53. *)
Lemma round_int_agrees_with_SpecFloat :
  Forall (fun '(a, b) =>
            Qeq_bool (SF2Q (SF_sum a b))
                     (inject_Z (Binary64.round_int (Zpos a + Zpos b))) = true)
         [(2, 1); (9007199254740991, 1); (9007199254740992, 1);
          (9007199254740992, 3); (4503599627370496, 4503599627370496)]%positive.
Proof. repeat constructor. Qed.

(** Off an exact half, a nearest integer is the half-up rounding. *)
Lemma nearest_is_half_up (p n total : Z) :
  0 < total -> - total <= 2 * (p * total - 100 * n) <= total ->
  (200 * n + total) mod (2 * total) <> 0 -> p = spec_round_half_up n total.
Proof.
  intros Ht Hp Hmod. unfold spec_round_half_up.
  destruct (Z.eq_dec (200 * n + total) (2 * total * (p + 1))) as [E|E].
  - exfalso. apply Hmod. rewrite E, Z.mul_comm. apply Z.mod_mul. lia.
  - apply (Z.div_unique_pos _ _ p (200 * n + total - 2 * total * p)); lia.
Qed.

(** Bounds shared by the percentage theorems. *)
Lemma counts_in_range (counts : VoteCounts) id n :
  nonneg_counts counts -> spec_total counts < 2 ^ 44 ->
  id <> "__proto__" -> counts !! id = Some (Int n) ->
  sum_values counts = Int (spec_total counts) /\
  0 <= n <= spec_total counts /\
  (derivePercentages counts).1 !! id = Some (Int (percent (spec_total counts) n)).
Proof.
  intros Hnn Ht Hid Hn.
  pose proof (sum_values_spec_total counts Hnn) as Hs.
  destruct (nonneg_counts_sum counts Hnn) as (t & Ht' & _ & Hle).
  rewrite Hs in Ht'. injection Ht' as <-.
  destruct (Hle _ _ Hn) as (z & [= <-] & Hz).
  split; [exact Hs|]. split; [exact Hz|].
  rewrite derivePercentages_lookup, Hn, Hs.
  by destruct (String.eqb_spec id "__proto__").
Qed.

(** ** C4: the tally aggregation *)

(** C4, as the code has it. For non-negative counts with a total below
    2^44: the total is the sum of all values; for every id but "__proto__",
    with total zero the percentage is zero; otherwise the percentage is an
    integer from 0 to 100 nearest to 100 * count / total, equal to its
    half-up rounding except possibly when 100 * count / total is exactly
    halfway between two integers, where it is one of the two neighbours. *)
Theorem derivePercentages_nearest (counts : VoteCounts) :
  nonneg_counts counts -> spec_total counts < 2 ^ 44 ->
  let total := spec_total counts in
  (derivePercentages counts).2 = Int total /\
  forall id n, id <> "__proto__" -> counts !! id = Some (Int n) ->
    exists p, (derivePercentages counts).1 !! id = Some (Int p) /\
      0 <= p <= 100 /\
      (total = 0 -> p = 0) /\
      (0 < total ->
         - total <= 2 * (p * total - 100 * n) <= total /\
         ((200 * n + total) mod (2 * total) <> 0 -> p = spec_round_half_up n total)).
Proof.
  intros Hnn Hbound. cbv zeta.
  split; [rewrite derivePercentages_total; by apply sum_values_spec_total|].
  intros id n Hid Hn.
  destruct (counts_in_range counts id n Hnn Hbound Hid Hn) as (Hs & Hle & Hl).
  exists (percent (spec_total counts) n). split; [exact Hl|].
  destruct (Z.eq_dec (spec_total counts) 0) as [E|E].
  - unfold percent. rewrite E. cbn. repeat split; lia.
  - pose proof (Binary64Facts.percent_nearest n (spec_total counts) Hle ltac:(lia)) as Hp.
    repeat split; try lia; try nia.
    intros Hmod. apply nearest_is_half_up; [lia | exact Hp | exact Hmod].
Qed.

Lemma counts_2_1_nonneg : nonneg_counts counts_2_1.
Proof. apply map_Forall_insert_2; [cbn; lia | apply map_Forall_singleton; cbn; lia]. Qed.

Lemma derivePercentages_nearest_witness :
  let total := spec_total counts_2_1 in
  (derivePercentages counts_2_1).2 = Int total /\
  forall id n, id <> "__proto__" -> counts_2_1 !! id = Some (Int n) ->
    exists p, (derivePercentages counts_2_1).1 !! id = Some (Int p) /\
      0 <= p <= 100 /\
      (total = 0 -> p = 0) /\
      (0 < total ->
         - total <= 2 * (p * total - 100 * n) <= total /\
         ((200 * n + total) mod (2 * total) <> 0 -> p = spec_round_half_up n total)).
Proof.
  apply (derivePercentages_nearest counts_2_1).
  - apply map_Forall_insert_2; [cbn; lia | apply map_Forall_singleton; cbn; lia].
  - vm_compute. reflexivity.
Defined.

(** The first end-to-end example of the specification. *)
Lemma derivePercentages_2_1 :
  derivePercentages counts_2_1 = ({[ "A" := Int 67; "B" := Int 33 ]}, Int 3).
Proof. vm_compute. reflexivity. Qed.

(** C4, as stated, fails at counts A: 23, B: 17. The exact percentages are
    57.5 and 42.5; the aggregation returns 57 and 43, which is the rounding
    of these halves neither upwards (58, 43) nor to even (58, 42). It also
    fails at an own key "__proto__", which gets no percentage at all. *)
Lemma derivePercentages_not_exact_rounding :
  (derivePercentages counts_23_17).1 !! "A" = Some (Int 57) /\
  (derivePercentages counts_23_17).1 !! "B" = Some (Int 43) /\
  spec_round_half_up 23 40 = 58 /\ spec_round_half_even 23 40 = 58 /\
  counts_proto !! "__proto__" = Some (Int 1) /\
  (derivePercentages counts_proto).1 !! "__proto__" = None /\
  ~ tally_contract spec_round_half_up /\
  ~ tally_contract spec_round_half_even.
Proof.
  assert (Hnn : nonneg_counts counts_23_17).
  { apply map_Forall_insert_2; [cbn; lia | apply map_Forall_singleton; cbn; lia]. }
  assert (HA : counts_23_17 !! "A" = Some (Int 23)) by (vm_compute; reflexivity).
  split; [vm_compute; reflexivity|].
  split; [vm_compute; reflexivity|].
  split; [vm_compute; reflexivity|].
  split; [vm_compute; reflexivity|].
  split; [vm_compute; reflexivity|].
  split; [vm_compute; reflexivity|].
  split; intros H; destruct (H counts_23_17 Hnn) as [_ H'];
    specialize (H' "A" 23 HA); vm_compute in H'; discriminate H'.
Qed.

(** In the normal range [RN] keeps a significand of 53 bits. *)
Lemma RN_pos_significand x :
  (Binary64.pow2 (-1022) <= x)%Q ->
  let e := Binary64.ilog2 x - 52 in
  Binary64.RN_pos x = (inject_Z (Binary64.rne (x / Binary64.pow2 e)) * Binary64.pow2 e)%Q /\
  2 ^ 52 <= Binary64.rne (x / Binary64.pow2 e) <= 2 ^ 53.
Proof.
  intros Hx e.
  pose proof (Binary64Facts.pow2_pos (-1022)) as Hmin.
  assert (Hx0 : (0 < x)%Q) by lra.
  destruct (Binary64Facts.ilog2_spec x Hx0) as [Hl Hu].
  assert (Hrange : -1022 <= Binary64.ilog2 x).
  { assert (-1022 < Binary64.ilog2 x + 1); [|lia].
    apply (Qpower_lt_compat_l_inv 2); [|reflexivity].
    fold (Binary64.pow2 (-1022)). fold (Binary64.pow2 (Binary64.ilog2 x + 1)). lra. }
  split.
  - unfold Binary64.RN_pos. fold e. replace (Z.max e (-1074)) with e by lia. reflexivity.
  - pose proof (Binary64Facts.pow2_pos e) as Hpe.
    destruct (Binary64Facts.rne_error (x / Binary64.pow2 e)%Q) as [H1 H2].
    assert (Hlo : (Binary64.pow2 52 <= x / Binary64.pow2 e)%Q).
    { apply Qle_shift_div_l; [exact Hpe|]. rewrite <- Binary64Facts.pow2_plus.
      replace (52 + e) with (Binary64.ilog2 x) by lia. exact Hl. }
    assert (Hhi : (x / Binary64.pow2 e < Binary64.pow2 53)%Q).
    { apply Qlt_shift_div_r; [exact Hpe|]. rewrite <- Binary64Facts.pow2_plus.
      replace (53 + e) with (Binary64.ilog2 x + 1) by lia. exact Hu. }
    change (Binary64.pow2 52) with (inject_Z (2 ^ 52)) in Hlo.
    change (Binary64.pow2 53) with (inject_Z (2 ^ 53)) in Hhi.
    set (m := Binary64.rne _) in *. set (y := (x / Binary64.pow2 e)%Q) in *.
    assert (Ha : (inject_Z (2 ^ 52) < inject_Z (m + 1))%Q).
    { rewrite inject_Z_plus. change (inject_Z 1) with 1%Q. lra. }
    assert (Hb : (inject_Z m < inject_Z (2 ^ 53 + 1))%Q).
    { rewrite inject_Z_plus. change (inject_Z 1) with 1%Q. lra. }
    rewrite <- Zlt_Qlt in Ha, Hb. lia.
Qed.

(** ** Bootstrap: cancellation and partial failure *)

Lemma bootstrap_user_vote_never st p :
  bootstrap_user_vote st never_cancelled p =
  match auth_user st with
  | Some uid => [USER_VOTE_LOADED (vote_for st uid (month_year p))]
  | None => []
  end.
Proof. unfold bootstrap_user_vote. by destruct (auth_user st). Qed.

Lemma bootstrap_user_vote_prefix st c p :
  bootstrap_user_vote st c p `prefix_of` bootstrap_user_vote st never_cancelled p.
Proof.
  rewrite bootstrap_user_vote_never. unfold bootstrap_user_vote.
  destruct (auth_user st); [|done].
  destruct (c 4%nat); [apply prefix_nil|].
  destruct (c 5%nat); [apply prefix_nil | done].
Qed.

(** X1. Tearing the session down during the bootstrap only cuts the run
    short: whatever the flag does, the actions dispatched are an initial
    segment of those of the uncancelled run, and none at all when the flag
    is set before the first answer. *)
Theorem bootstrap_cancel_prefix (st : Store) (cancelled : nat -> bool) :
  bootstrap st cancelled `prefix_of` bootstrap st never_cancelled /\
  (cancelled 1%nat = true -> bootstrap st cancelled = []).
Proof.
  split.
  - unfold bootstrap. cbn [never_cancelled].
    destruct (cancelled 1%nat); [apply prefix_nil|].
    destruct (resp_error (active_poll st)); [done|].
    destruct (resp_data (active_poll st)) as [p|]; [|done].
    destruct (cancelled 2%nat); [apply prefix_nil|].
    destruct (resp_error (vans_for st (poll_id p))); [done|].
    apply prefix_cons. unfold bootstrap_counts. cbn [never_cancelled].
    destruct (cancelled 3%nat); [apply prefix_nil|].
    apply prefix_app, bootstrap_user_vote_prefix.
  - intros H. unfold bootstrap. by rewrite H.
Qed.

Lemma bootstrap_cancel_prefix_witness :
  bootstrap store_voted (fun k => Nat.leb 3 k) `prefix_of`
    bootstrap store_voted never_cancelled /\
  ((fun k => Nat.leb 3 k) 1%nat = true ->
   bootstrap store_voted (fun k => Nat.leb 3 k) = []).
Proof. apply (bootstrap_cancel_prefix store_voted (fun k => Nat.leb 3 k)). Defined.

(** X2. When the poll query fails, or answers without a poll, the loader
    dispatches the single action [NO_ACTIVE_POLL]: whatever the session held
    when the answer arrives, it then shows no poll, no vans and no counts,
    with both loading flags cleared; percentages, total, user vote, status
    and error are left as they were. *)
Theorem bootstrap_no_active_poll (st : Store) (cancelled : nat -> bool)
    (s : VotingState) :
  cancelled 1%nat = false ->
  is_Some (resp_error (active_poll st)) \/ resp_data (active_poll st) = None ->
  bootstrap st cancelled = [NO_ACTIVE_POLL] /\
  let s' := dispatch_all s (bootstrap st cancelled) in
  poll s' = None /\ vans s' = [] /\ voteCounts s' = ∅ /\
  isLoadingPoll s' = false /\ isLoadingCounts s' = false /\
  percentages s' = percentages s /\ totalVotes s' = totalVotes s /\
  userVanId s' = userVanId s /\ status s' = status s /\ error_msg s' = error_msg s.
Proof.
  intros Hc H.
  assert (E : bootstrap st cancelled = [NO_ACTIVE_POLL]).
  { unfold bootstrap. rewrite Hc. destruct H as [[m ->] | H]; [done|].
    rewrite H. by destruct (resp_error _). }
  rewrite E. split; [done|]. cbn. by repeat split.
Qed.

Lemma bootstrap_no_active_poll_witness :
  bootstrap store_no_poll never_cancelled = [NO_ACTIVE_POLL] /\
  let s' := dispatch_all voted_state (bootstrap store_no_poll never_cancelled) in
  poll s' = None /\ vans s' = [] /\ voteCounts s' = ∅ /\
  isLoadingPoll s' = false /\ isLoadingCounts s' = false /\
  percentages s' = percentages voted_state /\ totalVotes s' = totalVotes voted_state /\
  userVanId s' = userVanId voted_state /\ status s' = status voted_state /\
  error_msg s' = error_msg voted_state.
Proof.
  apply (bootstrap_no_active_poll store_no_poll never_cancelled voted_state).
  - reflexivity.
  - right. reflexivity.
Defined.

(** The user-vote slot and the status after step 1d. *)
Lemma dispatch_user_vote s st p :
  let s' := dispatch_all s (bootstrap_user_vote st never_cancelled p) in
  poll s' = poll s /\ vans s' = vans s /\ voteCounts s' = voteCounts s /\
  percentages s' = percentages s /\ totalVotes s' = totalVotes s /\
  isLoadingPoll s' = isLoadingPoll s /\ isLoadingCounts s' = isLoadingCounts s /\
  match auth_user st with
  | Some uid =>
      userVanId s' = vote_for st uid (month_year p) /\
      status s' = (if truthy (vote_for st uid (month_year p)) then voted else idle)
  | None => userVanId s' = userVanId s /\ status s' = status s
  end.
Proof.
  rewrite bootstrap_user_vote_never. destruct (auth_user st); cbn; by repeat split.
Qed.

(** X3. When the three queries answer, the uncancelled bootstrap ends with
    the poll and its vans displayed, a count for every listed van and every
    returned row, percentages and total derived from these counts, both
    loading flags cleared, and the user marked as voted exactly when a vote
    of the signed-in user is found. *)
Theorem bootstrap_success (st : Store) (p : Poll) (vs : list Van)
    (rows : list VoteCountRow) :
  active_poll st = {| resp_data := Some p; resp_error := None |} ->
  vans_for st (poll_id p) = {| resp_data := Some vs; resp_error := None |} ->
  counts_for st (month_year p) = {| resp_data := Some rows; resp_error := None |} ->
  let s' := dispatch_all initialState (bootstrap st never_cancelled) in
  let vote := auth_user st ≫= (fun uid => vote_for st uid (month_year p)) in
  poll s' = Some p /\ vans s' = vs /\
  voteCounts s' = seed_counts vs rows /\ projection_ok s' /\
  isLoadingPoll s' = false /\ isLoadingCounts s' = false /\
  userVanId s' = vote /\ status s' = (if truthy vote then voted else idle).
Proof.
  intros Hp Hv Hc. cbv zeta.
  unfold bootstrap, bootstrap_counts. cbn [never_cancelled].
  rewrite Hp. cbn [resp_error resp_data]. rewrite Hv. cbn [resp_error resp_data default from_option id].
  rewrite Hc. cbn [resp_error resp_data].
  unfold dispatch_all. cbn [foldl app].
  set (s2 := reducer (reducer initialState _) _).
  destruct (dispatch_user_vote s2 st p) as (H1 & H2 & H3 & H4 & H5 & H6 & H7 & H8).
  unfold dispatch_all in *.
  rewrite H1, H2, H3, H6, H7. unfold projection_ok. rewrite H3, H4, H5.
  destruct (auth_user st) as [uid|]; cbn [mbind option_bind] in *;
    destruct H8 as [-> ->]; by repeat split.
Qed.

Lemma bootstrap_success_witness :
  let s' := dispatch_all initialState (bootstrap store_voted never_cancelled) in
  let vote := auth_user store_voted ≫=
                (fun uid => vote_for store_voted uid (month_year poll_may)) in
  poll s' = Some poll_may /\ vans s' = [van_a; van_b] /\
  voteCounts s' = seed_counts [van_a; van_b]
                    [ {| row_van_id := "B"; row_total_votes := 1 |} ] /\
  projection_ok s' /\
  isLoadingPoll s' = false /\ isLoadingCounts s' = false /\
  userVanId s' = vote /\ status s' = (if truthy vote then voted else idle).
Proof.
  apply (bootstrap_success store_voted poll_may [van_a; van_b]
           [ {| row_van_id := "B"; row_total_votes := 1 |} ]); reflexivity.
Defined.

(** X4. When only the counts query fails, the poll and its vans are still
    displayed and the user's vote is still looked up; no counts are loaded
    and the counts stay marked as loading. *)
Theorem bootstrap_counts_failure (st : Store) (p : Poll) (vs : list Van) :
  active_poll st = {| resp_data := Some p; resp_error := None |} ->
  vans_for st (poll_id p) = {| resp_data := Some vs; resp_error := None |} ->
  is_Some (resp_error (counts_for st (month_year p))) \/
  resp_data (counts_for st (month_year p)) = None ->
  let s' := dispatch_all initialState (bootstrap st never_cancelled) in
  let vote := auth_user st ≫= (fun uid => vote_for st uid (month_year p)) in
  poll s' = Some p /\ vans s' = vs /\ voteCounts s' = ∅ /\ totalVotes s' = Int 0 /\
  isLoadingPoll s' = false /\ isLoadingCounts s' = true /\
  userVanId s' = vote /\ status s' = (if truthy vote then voted else idle).
Proof.
  intros Hp Hv Hc. cbv zeta.
  unfold bootstrap, bootstrap_counts. cbn [never_cancelled].
  rewrite Hp. cbn [resp_error resp_data]. rewrite Hv. cbn [resp_error resp_data default from_option id].
  assert (E : match resp_error (counts_for st (month_year p)),
                    resp_data (counts_for st (month_year p)) with
              | None, Some rows => [COUNTS_LOADED (seed_counts vs rows)]
              | _, _ => []
              end = []).
  { destruct Hc as [[m ->] | ->]; [done | by destruct (resp_error _)]. }
  rewrite E. cbn [app]. unfold dispatch_all. cbn [foldl].
  set (s1 := reducer initialState _).
  destruct (dispatch_user_vote s1 st p) as (H1 & H2 & H3 & H4 & H5 & H6 & H7 & H8).
  unfold dispatch_all in *. rewrite H1, H2, H3, H5, H6, H7.
  destruct (auth_user st) as [uid|]; cbn [mbind option_bind] in *;
    destruct H8 as [-> ->]; by repeat split.
Qed.

Lemma bootstrap_counts_failure_witness :
  let s' := dispatch_all initialState (bootstrap store_counts_down never_cancelled) in
  let vote := auth_user store_counts_down ≫=
                (fun uid => vote_for store_counts_down uid (month_year poll_may)) in
  poll s' = Some poll_may /\ vans s' = [van_a; van_b] /\ voteCounts s' = ∅ /\
  totalVotes s' = Int 0 /\
  isLoadingPoll s' = false /\ isLoadingCounts s' = true /\
  userVanId s' = vote /\ status s' = (if truthy vote then voted else idle).
Proof.
  apply (bootstrap_counts_failure store_counts_down poll_may [van_a; van_b]).
  - reflexivity.
  - reflexivity.
  - left. by eexists.
Defined.

(** ** Seeding the counts *)

(** Away from "__proto__" an assignment is an insertion. *)
Lemma js_assign_lookup_plain (o : gmap string JsNum) key v id :
  id <> "__proto__" -> js_assign o key v !! id = <[key := v]> o !! id.
Proof.
  intros Hid. unfold js_assign. destruct (String.eqb_spec key "__proto__") as [->|_].
  - by rewrite lookup_insert_ne.
  - reflexivity.
Qed.

(** No assignment gives the key "__proto__" an entry. *)
Lemma js_assign_lookup_proto (o : gmap string JsNum) key v :
  js_assign o key v !! "__proto__" = o !! "__proto__".
Proof.
  unfold js_assign. destruct (String.eqb_spec key "__proto__") as [->|Hne].
  - reflexivity.
  - by rewrite lookup_insert_ne.
Qed.

Lemma seed_vans_lookup (vs : list Van) (m : VoteCounts) (id : string) :
  id <> "__proto__" ->
  foldl (fun c v => js_assign c (van_id v) (Int 0)) m vs !! id =
  if decide (id ∈ van_id <$> vs) then Some (Int 0) else m !! id.
Proof.
  intros Hid. revert m. induction vs as [|v vs IH]; intros m; cbn [foldl].
  - rewrite decide_False; [done | apply not_elem_of_nil].
  - rewrite IH, fmap_cons, js_assign_lookup_plain by exact Hid.
    destruct (decide (id ∈ van_id <$> vs)) as [Hin|Hnin].
    + rewrite decide_True; [done | rewrite elem_of_cons; tauto].
    + destruct (decide (id = van_id v)) as [->|Hne].
      * rewrite decide_True by (rewrite elem_of_cons; tauto). apply lookup_insert_eq.
      * rewrite decide_False by (rewrite elem_of_cons; tauto).
        by apply lookup_insert_ne.
Qed.

Lemma seed_rows_lookup_other (rows : list VoteCountRow) (m : VoteCounts) (id : string) :
  id ∉ row_van_id <$> rows ->
  foldl (fun c r => js_assign c (row_van_id r) (Int (row_total_votes r))) m rows !! id
  = m !! id.
Proof.
  revert m. induction rows as [|r rows IH]; intros m Hnin; cbn [foldl]; [done|].
  rewrite fmap_cons, not_elem_of_cons in Hnin. destruct Hnin as [Hne Hnin].
  rewrite IH by exact Hnin. rewrite js_assign_lookup.
  destruct (String.eqb _ _); [reflexivity|]. by rewrite decide_False.
Qed.

Lemma seed_rows_keeps_entries (rows : list VoteCountRow) (m : VoteCounts) (id : string) :
  is_Some (m !! id) ->
  is_Some (foldl (fun c r => js_assign c (row_van_id r) (Int (row_total_votes r))) m rows
           !! id).
Proof.
  revert m. induction rows as [|r rows IH]; intros m Hm; cbn [foldl]; [done|].
  apply IH. rewrite js_assign_lookup. destruct (String.eqb _ _); [exact Hm|].
  destruct (decide _); [by eexists | exact Hm].
Qed.

Lemma seed_counts_no_proto (vs : list Van) (rows : list VoteCountRow) :
  seed_counts vs rows !! "__proto__" = None.
Proof.
  unfold seed_counts.
  assert (Hr : forall (m : VoteCounts), m !! "__proto__" = None ->
    foldl (fun c r => js_assign c (row_van_id r) (Int (row_total_votes r))) m rows
      !! "__proto__" = None).
  { induction rows as [|r rows IH]; intros m Hm; cbn [foldl]; [exact Hm|].
    apply IH. by rewrite js_assign_lookup_proto. }
  apply Hr.
  assert (Hv : forall (m : VoteCounts), m !! "__proto__" = None ->
    foldl (fun c v => js_assign c (van_id v) (Int 0)) m vs !! "__proto__" = None).
  { induction vs as [|v vs IH]; intros m Hm; cbn [foldl]; [exact Hm|].
    apply IH. by rewrite js_assign_lookup_proto. }
  apply Hv, lookup_empty.
Qed.

(** X5. In the seeded counts every listed van has an entry, except a van
    whose id is "__proto__": that key never gets an entry. Any other id with
    no row reads 0 when it is a listed van and is absent otherwise; an id
    with rows reads the total of its last row. *)
Theorem seed_counts_lookup (vs : list Van) (rows : list VoteCountRow) :
  seed_counts vs rows !! "__proto__" = None /\
  (forall v, v ∈ vs -> van_id v <> "__proto__" ->
     is_Some (seed_counts vs rows !! van_id v)) /\
  (forall id, id <> "__proto__" -> id ∉ row_van_id <$> rows ->
     seed_counts vs rows !! id =
       if decide (id ∈ van_id <$> vs) then Some (Int 0) else None) /\
  (forall rows1 r rows2, rows = rows1 ++ r :: rows2 ->
     row_van_id r <> "__proto__" ->
     row_van_id r ∉ row_van_id <$> rows2 ->
     seed_counts vs rows !! row_van_id r = Some (Int (row_total_votes r))).
Proof.
  split; [apply seed_counts_no_proto|]. split; [|split].
  - intros v Hv Hid. unfold seed_counts. apply seed_rows_keeps_entries.
    rewrite seed_vans_lookup by exact Hid. rewrite decide_True; [by eexists|].
    by apply list_elem_of_fmap_2.
  - intros id Hid Hnin. unfold seed_counts.
    rewrite seed_rows_lookup_other by exact Hnin. by rewrite seed_vans_lookup.
  - intros rows1 r rows2 -> Hid Hnin. unfold seed_counts.
    rewrite foldl_app. cbn [foldl].
    rewrite seed_rows_lookup_other by exact Hnin.
    rewrite js_assign_lookup_plain by exact Hid. apply lookup_insert_eq.
Qed.

Lemma js_assign_nonneg (o : VoteCounts) key z :
  0 <= z -> nonneg_counts o -> nonneg_counts (js_assign o key (Int z)).
Proof.
  intros Hz Ho. unfold js_assign. destruct (String.eqb _ _); [exact Ho|].
  by apply map_Forall_insert_2.
Qed.

(** X6. Seeded from rows without negative totals, no count is negative. *)
Theorem seed_counts_nonneg (vs : list Van) (rows : list VoteCountRow) :
  Forall (fun r => 0 <= row_total_votes r) rows ->
  nonneg_counts (seed_counts vs rows).
Proof.
  intros Hrows. unfold seed_counts.
  assert (Hvs : forall m : VoteCounts, nonneg_counts m ->
            nonneg_counts (foldl (fun c v => js_assign c (van_id v) (Int 0)) m vs)).
  { induction vs as [|v vs IH]; intros m Hm; cbn [foldl]; [exact Hm|].
    apply IH. by apply js_assign_nonneg. }
  specialize (Hvs ∅ (map_Forall_empty _)). revert Hvs.
  generalize (foldl (fun (c : VoteCounts) v => js_assign c (van_id v) (Int 0)) ∅ vs).
  induction Hrows as [|r rows Hr _ IH]; intros m Hm; cbn [foldl]; [exact Hm|].
  apply IH. by apply js_assign_nonneg.
Qed.

Lemma seed_counts_nonneg_witness :
  nonneg_counts (seed_counts [van_a; van_b]
                   [ {| row_van_id := "B"; row_total_votes := 1 |} ]).
Proof.
  apply (seed_counts_nonneg [van_a; van_b]
           [ {| row_van_id := "B"; row_total_votes := 1 |} ]).
  repeat constructor. cbn. lia.
Defined.

(** ** Vote events *)

Lemma handle_vote_insert_match s p id :
  poll s = Some p ->
  handle_vote_insert s id (month_year p) = reducer s (COUNT_UPDATED id Plus1).
Proof.
  intros Hp. unfold handle_vote_insert, on_vote_insert. by rewrite Hp, String.eqb_refl.
Qed.

Lemma handle_vote_delete_match s p id :
  poll s = Some p ->
  handle_vote_delete s id (month_year p) = reducer s (COUNT_UPDATED id Minus1).
Proof.
  intros Hp. unfold handle_vote_delete, on_vote_delete. by rewrite Hp, String.eqb_refl.
Qed.

Lemma projection_total s :
  projection_ok s -> totalVotes s = sum_values (voteCounts s).
Proof. unfold projection_ok. intros H. by apply (f_equal snd) in H. Qed.

(** The effect of one delta on a key that reads a number, on non-negative
    counts adding up to less than 2^53. *)
Lemma delta_effect s id d :
  nonneg_counts (voteCounts s) -> reads_number (voteCounts s) id ->
  spec_total (voteCounts s) < 2 ^ 53 ->
  let s' := reducer s (COUNT_UPDATED id d) in
  exists c,
    count_of (voteCounts s) id = Some (Int c) /\ 0 <= c <= spec_total (voteCounts s) /\
    count_of (voteCounts s') id = Some (Int (Z.max 0 (c + delta_value d))) /\
    (forall k, k <> id -> voteCounts s' !! k = voteCounts s !! k) /\
    totalVotes s' = Int (spec_total (voteCounts s) - c + Z.max 0 (c + delta_value d)) /\
    nonneg_counts (voteCounts s') /\
    spec_total (voteCounts s')
      = spec_total (voteCounts s) - c + Z.max 0 (c + delta_value d).
Proof.
  intros Hnn Hr Hb s'. subst s'.
  destruct (count_of_reads _ _ Hnn Hr) as (c & Hc & Hc0 & Hown).
  pose proof (sum_values_spec_total _ Hnn) as Hsum.
  assert (Hct : c <= spec_total (voteCounts s)).
  { destruct (nonneg_counts_sum _ Hnn) as (t & Ht & Ht0 & Hle).
    rewrite Hsum in Ht. injection Ht as <-.
    destruct Hown as [E | [_ ->]]; [|exact Ht0].
    destruct (Hle _ _ E) as (z & [= <-] & Hz). lia. }
  destruct (bumped_number _ id d c Hc) as (z & E & Hz).
  rewrite Hz in E by (destruct d; cbn; lia).
  assert (Hnn' : nonneg_counts (voteCounts (reducer s (COUNT_UPDATED id d)))).
  { rewrite voteCounts_COUNT_UPDATED, E. apply map_Forall_insert_2; [cbn; lia | exact Hnn]. }
  assert (Htot : sum_values (voteCounts (reducer s (COUNT_UPDATED id d)))
                 = Int (spec_total (voteCounts s) - c + Z.max 0 (c + delta_value d))).
  { rewrite voteCounts_COUNT_UPDATED, E.
    apply sum_values_insert_int; [exact Hsum | exact Hown]. }
  exists c. split; [exact Hc|]. split; [lia|].
  split; [|split; [|split; [|split]]].
  - rewrite voteCounts_COUNT_UPDATED, E. unfold count_of, js_get.
    by rewrite lookup_insert_eq.
  - intros k Hk. rewrite voteCounts_COUNT_UPDATED. by rewrite lookup_insert_ne.
  - by rewrite totalVotes_COUNT_UPDATED.
  - exact Hnn'.
  - pose proof (sum_values_spec_total _ Hnn') as H. rewrite Htot in H. by injection H.
Qed.

(** X7. A vote-created event for the period of the displayed poll, on a
    rendered session with non-negative counts adding up to less than 2^53 and
    a total derived from them, for a van that has an entry or does not bear
    the name of a member of [Object.prototype]: the count of that van grows
    by one, the other entries stay, and the total grows by one. *)
Theorem vote_insert_counts_one (s : VotingState) (p : Poll) (id : string) :
  poll s = Some p -> nonneg_counts (voteCounts s) -> projection_ok s ->
  reads_number (voteCounts s) id -> spec_total (voteCounts s) < 2 ^ 53 ->
  let s' := handle_vote_insert s id (month_year p) in
  exists c,
    count_of (voteCounts s) id = Some (Int c) /\
    count_of (voteCounts s') id = Some (Int (c + 1)) /\
    (forall k, k <> id -> voteCounts s' !! k = voteCounts s !! k) /\
    totalVotes s = Int (spec_total (voteCounts s)) /\
    totalVotes s' = Int (spec_total (voteCounts s) + 1) /\
    projection_ok s'.
Proof.
  intros Hp Hnn Hproj Hr Hb. cbv zeta. rewrite (handle_vote_insert_match _ _ _ Hp).
  destruct (delta_effect s id Plus1 Hnn Hr Hb) as (c & H1 & H2 & H3 & H4 & H5 & _).
  cbv zeta in *. cbn [delta_value] in *.
  replace (Z.max 0 (c + 1)) with (c + 1) in * by lia.
  exists c. split; [exact H1|]. split; [exact H3|]. split; [exact H4|].
  split; [rewrite (projection_total _ Hproj); by apply sum_values_spec_total|].
  split; [rewrite H5; f_equal; lia|].
  apply projection_ok_step; [discriminate | exact Hproj].
Qed.

Lemma voted_state_nonneg : nonneg_counts (voteCounts voted_state).
Proof. apply map_Forall_singleton. cbn. lia. Qed.

Lemma voted_state_projection : projection_ok voted_state.
Proof. unfold projection_ok. vm_compute. reflexivity. Qed.

Lemma voted_state_total : spec_total (voteCounts voted_state) = 2.
Proof. vm_compute. reflexivity. Qed.

Lemma plain_B : "B" ∉ object_prototype_names.
Proof.
  intros H. repeat (apply elem_of_cons in H as [H|H]; [discriminate H|]).
  by apply elem_of_nil in H.
Qed.

Lemma vote_insert_counts_one_witness :
  let s' := handle_vote_insert voted_state "B" (month_year poll_may) in
  exists c,
    count_of (voteCounts voted_state) "B" = Some (Int c) /\
    count_of (voteCounts s') "B" = Some (Int (c + 1)) /\
    (forall k, k <> "B" -> voteCounts s' !! k = voteCounts voted_state !! k) /\
    totalVotes voted_state = Int (spec_total (voteCounts voted_state)) /\
    totalVotes s' = Int (spec_total (voteCounts voted_state) + 1) /\
    projection_ok s'.
Proof.
  apply (vote_insert_counts_one voted_state poll_may "B").
  - reflexivity.
  - exact voted_state_nonneg.
  - exact voted_state_projection.
  - right. exact plain_B.
  - rewrite voted_state_total. reflexivity.
Defined.

(** X8. A vote event is dropped, leaving the session as it is, when no poll
    is displayed or when the period of the vote is not that of the displayed
    poll. *)
Theorem vote_event_ignored (s : VotingState) (id period : string) :
  poll s = None \/ (exists p, poll s = Some p /\ period <> month_year p) ->
  handle_vote_insert s id period = s /\ handle_vote_delete s id period = s.
Proof.
  unfold handle_vote_insert, handle_vote_delete, on_vote_insert, on_vote_delete.
  intros [-> | (p & -> & Hne)]; [done|].
  destruct (String.eqb_spec period (month_year p)); [contradiction | done].
Qed.

Lemma vote_event_ignored_witness :
  (handle_vote_insert initialState "A" "2024-05" = initialState /\
   handle_vote_delete initialState "A" "2024-05" = initialState) /\
  (handle_vote_insert voted_state "A" "2024-04" = voted_state /\
   handle_vote_delete voted_state "A" "2024-04" = voted_state).
Proof.
  split.
  - apply (vote_event_ignored initialState "A" "2024-05"). left. reflexivity.
  - apply (vote_event_ignored voted_state "A" "2024-04"). right.
    exists poll_may. split; [reflexivity | discriminate].
Defined.

(** X9. A vote-removed event for the period of the displayed poll, under
    the conditions of X7: a positive count and the total go down by one; a
    count of zero, and a van without entry, end at zero with the total as it
    was; the other entries stay. *)
Theorem vote_delete_counts_one (s : VotingState) (p : Poll) (id : string) :
  poll s = Some p -> nonneg_counts (voteCounts s) -> projection_ok s ->
  reads_number (voteCounts s) id -> spec_total (voteCounts s) < 2 ^ 53 ->
  let s' := handle_vote_delete s id (month_year p) in
  exists c,
    count_of (voteCounts s) id = Some (Int c) /\
    (forall k, k <> id -> voteCounts s' !! k = voteCounts s !! k) /\
    totalVotes s = Int (spec_total (voteCounts s)) /\
    (0 < c -> count_of (voteCounts s') id = Some (Int (c - 1)) /\
              totalVotes s' = Int (spec_total (voteCounts s) - 1)) /\
    (c = 0 -> count_of (voteCounts s') id = Some (Int 0) /\
              totalVotes s' = totalVotes s) /\
    projection_ok s'.
Proof.
  intros Hp Hnn Hproj Hr Hb. cbv zeta. rewrite (handle_vote_delete_match _ _ _ Hp).
  destruct (delta_effect s id Minus1 Hnn Hr Hb) as (c & H1 & H2 & H3 & H4 & H5 & _).
  cbv zeta in *. cbn [delta_value] in *.
  assert (Ht : totalVotes s = Int (spec_total (voteCounts s))).
  { rewrite (projection_total _ Hproj). by apply sum_values_spec_total. }
  exists c. split; [exact H1|]. split; [exact H4|]. split; [exact Ht|].
  split; [|split].
  - intros Hc. rewrite H3, H5. split; f_equal; f_equal; lia.
  - intros ->. rewrite H3, H5, Ht. split; f_equal; f_equal; lia.
  - apply projection_ok_step; [discriminate | exact Hproj].
Qed.

Lemma vote_delete_counts_one_witness :
  let s' := handle_vote_delete voted_state "A" (month_year poll_may) in
  exists c,
    count_of (voteCounts voted_state) "A" = Some (Int c) /\
    (forall k, k <> "A" -> voteCounts s' !! k = voteCounts voted_state !! k) /\
    totalVotes voted_state = Int (spec_total (voteCounts voted_state)) /\
    (0 < c -> count_of (voteCounts s') "A" = Some (Int (c - 1)) /\
              totalVotes s' = Int (spec_total (voteCounts voted_state) - 1)) /\
    (c = 0 -> count_of (voteCounts s') "A" = Some (Int 0) /\
              totalVotes s' = totalVotes voted_state) /\
    projection_ok s'.
Proof.
  apply (vote_delete_counts_one voted_state poll_may "A").
  - reflexivity.
  - exact voted_state_nonneg.
  - exact voted_state_projection.
  - left. by eexists.
  - rewrite voted_state_total. reflexivity.
Defined.

(** X10. Notifications are not deduplicated: under the conditions of X7,
    with a total below 2^53 - 1, the same vote-created event delivered twice
    is counted twice, in the count of its van and in the total. *)
Theorem vote_insert_replayed (s : VotingState) (p : Poll) (id : string) :
  poll s = Some p -> nonneg_counts (voteCounts s) -> projection_ok s ->
  reads_number (voteCounts s) id -> spec_total (voteCounts s) < 2 ^ 53 - 1 ->
  let s' := handle_vote_insert (handle_vote_insert s id (month_year p))
                               id (month_year p) in
  exists c,
    count_of (voteCounts s) id = Some (Int c) /\
    count_of (voteCounts s') id = Some (Int (c + 2)) /\
    totalVotes s = Int (spec_total (voteCounts s)) /\
    totalVotes s' = Int (spec_total (voteCounts s) + 2).
Proof.
  intros Hp Hnn Hproj Hr Hb. cbv zeta. rewrite (handle_vote_insert_match _ _ _ Hp).
  rewrite (handle_vote_insert_match _ p) by (by rewrite poll_COUNT_UPDATED).
  destruct (delta_effect s id Plus1 Hnn Hr ltac:(lia))
    as (c & H1 & H2 & H3 & _ & H5 & H6 & H7).
  cbv zeta in *. cbn [delta_value] in *.
  replace (Z.max 0 (c + 1)) with (c + 1) in * by lia.
  set (s1 := reducer s (COUNT_UPDATED id Plus1)) in *.
  assert (Hr1 : reads_number (voteCounts s1) id).
  { left. unfold s1. rewrite voteCounts_COUNT_UPDATED, lookup_insert_eq. by eexists. }
  destruct (delta_effect s1 id Plus1 H6 Hr1 ltac:(lia))
    as (c1 & K1 & K2 & K3 & _ & K5 & _).
  cbv zeta in *. cbn [delta_value] in *.
  rewrite H3 in K1. injection K1 as <-.
  replace (Z.max 0 (c + 1 + 1)) with (c + 2) in * by lia.
  exists c. split; [exact H1|]. split; [exact K3|]. split.
  - rewrite (projection_total _ Hproj). by apply sum_values_spec_total.
  - rewrite K5, H7. f_equal. lia.
Qed.

Lemma vote_insert_replayed_witness :
  let s' := handle_vote_insert (handle_vote_insert voted_state "A" (month_year poll_may))
                               "A" (month_year poll_may) in
  exists c,
    count_of (voteCounts voted_state) "A" = Some (Int c) /\
    count_of (voteCounts s') "A" = Some (Int (c + 2)) /\
    totalVotes voted_state = Int (spec_total (voteCounts voted_state)) /\
    totalVotes s' = Int (spec_total (voteCounts voted_state) + 2).
Proof.
  apply (vote_insert_replayed voted_state poll_may "A").
  - reflexivity.
  - exact voted_state_nonneg.
  - exact voted_state_projection.
  - left. by eexists.
  - rewrite voted_state_total. reflexivity.
Defined.

(** ** Poll events *)

Lemma handle_polls_change_replace st s ev np :
  ev = INSERT \/ (ev = UPDATE /\ is_active np = true) ->
  handle_polls_change st s ev np =
  reducer s (POLL_REPLACED np (default [] (resp_data (vans_for st (poll_id np))))).
Proof.
  unfold handle_polls_change, on_polls_change.
  intros [-> | [-> ->]]; reflexivity.
Qed.

(** X11. An INSERT on [polls], whatever the active flag of the new row, and
    an UPDATE to an active row replace the displayed poll: the new poll is
    displayed with its vans (none when their query fails), the tally and the
    user's vote are reset and the counts are marked as loading. *)
Theorem polls_change_replaces (st : Store) (s : VotingState) (ev : EventType)
    (np : Poll) :
  ev = INSERT \/ (ev = UPDATE /\ is_active np = true) ->
  let s' := handle_polls_change st s ev np in
  poll s' = Some np /\
  vans s' = default [] (resp_data (vans_for st (poll_id np))) /\
  voteCounts s' = ∅ /\ percentages s' = ∅ /\ totalVotes s' = Int 0 /\
  userVanId s' = None /\ status s' = idle /\ isLoadingCounts s' = true /\
  error_msg s' = error_msg s /\ isLoadingPoll s' = isLoadingPoll s.
Proof.
  intros H. cbv zeta. rewrite (handle_polls_change_replace _ _ _ _ H). cbn.
  by repeat split.
Qed.

Lemma polls_change_replaces_witness :
  let s' := handle_polls_change store_vans_down voted_state INSERT poll_june in
  poll s' = Some poll_june /\
  vans s' = default [] (resp_data (vans_for store_vans_down (poll_id poll_june))) /\
  voteCounts s' = ∅ /\ percentages s' = ∅ /\ totalVotes s' = Int 0 /\
  userVanId s' = None /\ status s' = idle /\ isLoadingCounts s' = true /\
  error_msg s' = error_msg voted_state /\ isLoadingPoll s' = isLoadingPoll voted_state.
Proof.
  apply (polls_change_replaces store_vans_down voted_state INSERT poll_june).
  left. reflexivity.
Defined.

(** X12. A DELETE on [polls] and an UPDATE to an inactive row, the
    deactivation of the displayed poll included, leave the session as it
    is. *)
Theorem polls_change_ignored (st : Store) (s : VotingState) (ev : EventType)
    (np : Poll) :
  ev = DELETE \/ (ev = UPDATE /\ is_active np = false) ->
  handle_polls_change st s ev np = s.
Proof.
  unfold handle_polls_change, on_polls_change.
  intros [-> | [-> ->]]; reflexivity.
Qed.

Lemma polls_change_ignored_witness :
  handle_polls_change store_ok voted_state UPDATE
    {| poll_id := "p1"; poll_title := "May vans"; month_year := "2024-05";
       is_active := false; created_by := None; poll_created_at := "2024-05-01" |}
  = voted_state.
Proof.
  apply (polls_change_ignored store_ok voted_state UPDATE).
  right. split; reflexivity.
Defined.

(** ** The poll the handlers see *)

(** The counts after a first vote on a state that has none. *)
Lemma first_vote_counts s id :
  voteCounts s = ∅ -> id ∉ object_prototype_names ->
  voteCounts (reducer s (COUNT_UPDATED id Plus1)) = {[ id := Int 1 ]} /\
  totalVotes (reducer s (COUNT_UPDATED id Plus1)) = Int 1.
Proof.
  intros He Hid.
  assert (Hv : voteCounts (reducer s (COUNT_UPDATED id Plus1)) = {[ id := Int 1 ]}).
  { rewrite voteCounts_COUNT_UPDATED, He. unfold js_get.
    rewrite lookup_empty, bool_decide_eq_false_2 by exact Hid. reflexivity. }
  split; [exact Hv|].
  rewrite totalVotes_COUNT_UPDATED, Hv.
  change ({[ id := Int 1 ]} : VoteCounts) with (<[id := Int 1]> (∅ : VoteCounts)).
  rewrite sum_values_insert by apply lookup_empty. reflexivity.
Qed.

(** X13. The vote handlers see the poll of the last render, not the poll of
    the state. After an INSERT on [polls] and before the hook has rendered,
    [pollRef] is unchanged: a vote-created event of the new period is dropped
    when no poll was displayed or the old poll has another period, and a
    vote of the old period is counted into the counts of the new poll. Once
    the hook has rendered, a vote of another period is dropped and one of the
    new period is counted from zero. The van does not bear the name of a
    member of [Object.prototype]. *)
Theorem votes_follow_rendered_poll (st : Store) (x : Session) (np : Poll)
    (id period : string) :
  id ∉ object_prototype_names -> period <> month_year np ->
  let vote q := Notified st (VoteInserted id q) in
  let x1 := session_step x (Notified st (PollsChanged INSERT np)) in
  let x2 := session_step x1 Rendered in
  pollRef x1 = pollRef x /\ pollRef x2 = Some np /\
  (pollRef x = None -> view (session_step x1 (vote (month_year np))) = view x1) /\
  (forall op, pollRef x = Some op -> month_year op <> month_year np ->
     view (session_step x1 (vote (month_year np))) = view x1 /\
     voteCounts (view (session_step x1 (vote (month_year op)))) = {[ id := Int 1 ]}) /\
  view (session_step x2 (vote period)) = view x2 /\
  voteCounts (view (session_step x2 (vote (month_year np)))) = {[ id := Int 1 ]} /\
  totalVotes (view (session_step x2 (vote (month_year np)))) = Int 1.
Proof.
  intros Hid Hne. cbv zeta. cbn [session_step view pollRef on_event].
  set (s1 := dispatch_all (view x) (on_polls_change st INSERT np)).
  assert (Hs1 : voteCounts s1 = ∅ /\ poll s1 = Some np) by (by split).
  destruct Hs1 as [Hc Hp].
  split; [reflexivity|]. split; [exact Hp|].
  split; [|split; [|split; [|split]]].
  - intros ->. reflexivity.
  - intros op -> Hop. unfold on_vote_insert. split.
    + destruct (String.eqb_spec (month_year np) (month_year op)); [congruence | done].
    + rewrite String.eqb_refl. cbn [dispatch_all foldl].
      by apply first_vote_counts.
  - rewrite Hp. unfold on_vote_insert.
    destruct (String.eqb_spec period (month_year np)); [contradiction | done].
  - rewrite Hp. unfold on_vote_insert. rewrite String.eqb_refl. cbn [dispatch_all foldl].
    by apply first_vote_counts.
  - rewrite Hp. unfold on_vote_insert. rewrite String.eqb_refl. cbn [dispatch_all foldl].
    by apply first_vote_counts.
Qed.

Lemma votes_follow_rendered_poll_witness :
  let vote q := Notified store_ok (VoteInserted "B" q) in
  let x1 := session_step (rendered voted_state)
              (Notified store_ok (PollsChanged INSERT poll_june)) in
  let x2 := session_step x1 Rendered in
  pollRef x1 = pollRef (rendered voted_state) /\ pollRef x2 = Some poll_june /\
  (pollRef (rendered voted_state) = None ->
   view (session_step x1 (vote (month_year poll_june))) = view x1) /\
  (forall op, pollRef (rendered voted_state) = Some op ->
     month_year op <> month_year poll_june ->
     view (session_step x1 (vote (month_year poll_june))) = view x1 /\
     voteCounts (view (session_step x1 (vote (month_year op)))) = {[ "B" := Int 1 ]}) /\
  view (session_step x2 (vote "2024-05")) = view x2 /\
  voteCounts (view (session_step x2 (vote (month_year poll_june)))) = {[ "B" := Int 1 ]} /\
  totalVotes (view (session_step x2 (vote (month_year poll_june)))) = Int 1.
Proof.
  apply (votes_follow_rendered_poll store_ok (rendered voted_state) poll_june "B" "2024-05").
  - exact plain_B.
  - discriminate.
Defined.

(** ** What any run of events keeps *)

(** A delta on a key that reads a number keeps non-negative counts
    non-negative, whatever their size. *)
Lemma count_updated_keeps_nonneg s id d :
  nonneg_counts (voteCounts s) -> reads_number (voteCounts s) id ->
  nonneg_counts (voteCounts (reducer s (COUNT_UPDATED id d))) /\
  exists n, voteCounts (reducer s (COUNT_UPDATED id d)) !! id = Some (Int n) /\ 0 <= n.
Proof.
  intros Hnn Hr. rewrite voteCounts_COUNT_UPDATED.
  destruct (count_of_reads _ _ Hnn Hr) as (c & Hc & _ & _).
  destruct (bumped_number _ id d c Hc) as (z & E & _). rewrite E. split.
  - apply map_Forall_insert_2; [cbn; lia | exact Hnn].
  - exists (Z.max 0 z). rewrite lookup_insert_eq. split; [reflexivity | lia].
Qed.

(** A step of the session is no change of the state, one count delta for
    the van of the step, or one poll replacement. *)
Lemma session_step_cases x k :
  view (session_step x k) = view x \/
  (exists id d, step_van_id k = Some id /\
                view (session_step x k) = reducer (view x) (COUNT_UPDATED id d)) \/
  (exists p vs, view (session_step x k) = reducer (view x) (POLL_REPLACED p vs)).
Proof.
  destruct k as [st [id period | id period | ev np | ] | ];
    cbn [session_step view on_event step_van_id]; [| | | | by left].
  - unfold on_vote_insert. destruct (pollRef x) as [cp|]; [|by left].
    destruct (String.eqb _ _); [right; left; by eexists _, _ | by left].
  - unfold on_vote_delete. destruct (pollRef x) as [cp|]; [|by left].
    destruct (String.eqb _ _); [right; left; by eexists _, _ | by left].
  - unfold on_polls_change.
    destruct ev; [right; right; by eexists _, _ | | by left].
    destruct (is_active np); [right; right; by eexists _, _ | by left].
  - unfold on_vans_change. destruct (pollRef x) as [cp|]; [|by left].
    destruct (resp_data _); [right; right; by eexists _, _ | by left].
Qed.

(** X14. Realtime events keep the tally sound: from a session whose counts
    are non-negative and whose percentages and total are derived from its
    counts, any sequence of notifications and renders leads to such a
    session, provided no vote notification is about a van that bears the
    name of a member of [Object.prototype]. *)
Theorem events_keep_tally_sound (x : Session) (ks : list Step) :
  Forall plain_step ks ->
  nonneg_counts (voteCounts (view x)) -> projection_ok (view x) ->
  nonneg_counts (voteCounts (view (session_run x ks))) /\
  projection_ok (view (session_run x ks)).
Proof.
  intros Hks. revert x.
  induction Hks as [|k ks Hk _ IH]; intros x Hnn Hproj; [by split|].
  cbn [session_run foldl]. apply IH.
  - destruct (session_step_cases x k) as [-> | [(id & d & Hid & ->) | (p & vs & ->)]].
    + exact Hnn.
    + apply count_updated_keeps_nonneg; [exact Hnn|]. right.
      unfold plain_step in Hk. by rewrite Hid in Hk.
    + apply map_Forall_empty.
  - destruct (session_step_cases x k) as [-> | [(id & d & _ & ->) | (p & vs & ->)]].
    + exact Hproj.
    + by apply projection_ok_step.
    + by apply projection_ok_step.
Qed.

Lemma voted_state_nonneg_view : nonneg_counts (voteCounts (view (rendered voted_state))).
Proof. apply map_Forall_singleton. cbn. lia. Qed.

Lemma events_keep_tally_sound_witness :
  let ks := [Notified store_ok (VoteInserted "B" "2024-05");
             Notified store_ok (PollsChanged INSERT poll_june);
             Notified store_ok (VoteInserted "B" "2024-05"); Rendered;
             Notified store_ok VansChanged] in
  nonneg_counts (voteCounts (view (session_run (rendered voted_state) ks))) /\
  projection_ok (view (session_run (rendered voted_state) ks)).
Proof.
  apply (events_keep_tally_sound (rendered voted_state)).
  - repeat constructor; exact plain_B.
  - exact voted_state_nonneg_view.
  - unfold projection_ok. vm_compute. reflexivity.
Defined.

(** X15. No realtime event finishes a load or touches the error: the error
    message and the poll-loading flag are never changed by notifications,
    and counts marked as loading stay so, in particular after a poll event
    has replaced the poll. *)
Theorem events_never_finish_loading (x : Session) (ks : list Step) :
  error_msg (view (session_run x ks)) = error_msg (view x) /\
  isLoadingPoll (view (session_run x ks)) = isLoadingPoll (view x) /\
  (isLoadingCounts (view x) = true ->
   isLoadingCounts (view (session_run x ks)) = true) /\
  (forall st np,
     isLoadingCounts
       (view (session_run (session_step x (Notified st (PollsChanged INSERT np))) ks))
     = true).
Proof.
  assert (H : forall ks x,
    error_msg (view (session_run x ks)) = error_msg (view x) /\
    isLoadingPoll (view (session_run x ks)) = isLoadingPoll (view x) /\
    (isLoadingCounts (view x) = true ->
     isLoadingCounts (view (session_run x ks)) = true)).
  { clear. induction ks as [|k ks IH]; intros x; [by repeat split|].
    cbn [session_run foldl]. destruct (IH (session_step x k)) as (H1 & H2 & H3).
    fold (session_run (session_step x k) ks). rewrite H1, H2.
    destruct (session_step_cases x k) as [E | [(id & d & _ & E) | (p & vs & E)]];
      rewrite E in *; cbn; (split; [done|]); (split; [done|]); intros Hl;
      apply H3; cbn; done. }
  destruct (H ks x) as (H1 & H2 & H3). repeat split; try done.
  intros st np. by apply H.
Qed.

(** ** What any run of actions keeps *)

(** X16. Counts never become negative, nor [NaN]: along any run of actions
    whose loaded counts are non-negative integers and whose deltas are not
    for a van that bears the name of a member of [Object.prototype], from
    non-negative counts. *)
Theorem nonneg_counts_run (acts : list Action) (s : VotingState) :
  Forall plain_action acts -> nonneg_counts (voteCounts s) ->
  nonneg_counts (voteCounts (dispatch_all s acts)).
Proof.
  intros Hacts. revert s. induction Hacts as [|a acts Ha _ IH]; intros s Hs; [exact Hs|].
  cbn. apply IH. destruct a; try exact Hs; try apply map_Forall_empty.
  - exact Ha.
  - apply count_updated_keeps_nonneg; [exact Hs | by right].
Qed.

Lemma plain_A : "A" ∉ object_prototype_names.
Proof.
  intros H. repeat (apply elem_of_cons in H as [H|H]; [discriminate H|]).
  by apply elem_of_nil in H.
Qed.

Lemma nonneg_counts_run_witness :
  nonneg_counts (voteCounts (dispatch_all initialState
    [COUNTS_LOADED counts_2_1; COUNT_UPDATED "A" Minus1; COUNT_UPDATED "B" Minus1])).
Proof.
  apply (nonneg_counts_run
           [COUNTS_LOADED counts_2_1; COUNT_UPDATED "A" Minus1; COUNT_UPDATED "B" Minus1]
           initialState).
  - repeat constructor; [exact counts_2_1_nonneg | exact plain_A | exact plain_B].
  - apply map_Forall_empty.
Defined.

(** X17. Percentages and total are the aggregation of the counts after any
    run of actions that contains no [NO_ACTIVE_POLL], from the initial
    state. *)
Theorem projection_ok_without_reset (acts : list Action) :
  Forall (fun a => a <> NO_ACTIVE_POLL) acts ->
  projection_ok (dispatch_all initialState acts).
Proof.
  intros Hacts. assert (H : forall s, projection_ok s -> projection_ok (dispatch_all s acts)).
  { induction Hacts as [|a acts Ha _ IH]; intros s Hs; [exact Hs|].
    cbn. apply IH. by apply projection_ok_step. }
  apply H, projection_ok_initial.
Qed.

Lemma projection_ok_without_reset_witness :
  projection_ok (dispatch_all initialState
    [POLL_LOADED poll_may [van_a]; COUNTS_LOADED counts_2_1; COUNT_UPDATED "A" Plus1]).
Proof.
  apply (projection_ok_without_reset
    [POLL_LOADED poll_may [van_a]; COUNTS_LOADED counts_2_1; COUNT_UPDATED "A" Plus1]).
  repeat constructor; discriminate.
Defined.

(** X29. A count delta for a van that has an entry, or does not bear the
    name of a member of [Object.prototype], applied to non-negative counts,
    leaves every count a non-negative integer, whatever the size of the
    counts; the count it writes is floored at zero. *)
Theorem count_updated_nonneg_plain (s : VotingState) (id : string) (d : Delta) :
  nonneg_counts (voteCounts s) -> reads_number (voteCounts s) id ->
  nonneg_counts (voteCounts (reducer s (COUNT_UPDATED id d))) /\
  exists n, voteCounts (reducer s (COUNT_UPDATED id d)) !! id = Some (Int n) /\ 0 <= n.
Proof. apply count_updated_keeps_nonneg. Qed.

Lemma count_updated_nonneg_plain_witness :
  nonneg_counts (voteCounts (reducer initialState (COUNT_UPDATED "A" Minus1))) /\
  exists n, voteCounts (reducer initialState (COUNT_UPDATED "A" Minus1)) !! "A" = Some (Int n)
            /\ 0 <= n.
Proof.
  apply (count_updated_nonneg_plain initialState "A" Minus1).
  - apply map_Forall_empty.
  - right. exact plain_A.
Defined.

(** X30. A delta for a van that has no entry and does not bear the name of
    a member of [Object.prototype] reads the missing count as zero: an
    increment enters the van with count 1, a decrement with count 0. *)
Theorem count_updated_unknown_plain (s : VotingState) (id : string) :
  voteCounts s !! id = None -> id ∉ object_prototype_names ->
  voteCounts (reducer s (COUNT_UPDATED id Plus1)) = <[id := Int 1]> (voteCounts s) /\
  voteCounts (reducer s (COUNT_UPDATED id Minus1)) = <[id := Int 0]> (voteCounts s) /\
  voteCounts (reducer s (COUNT_UPDATED id Plus1)) !! id = Some (Int 1) /\
  voteCounts (reducer s (COUNT_UPDATED id Minus1)) !! id = Some (Int 0).
Proof.
  intros Hnone Hid. rewrite !voteCounts_COUNT_UPDATED.
  unfold js_get. rewrite Hnone, bool_decide_eq_false_2 by exact Hid.
  change (Math_max0 (plus_delta Undefined Plus1)) with (Int 1).
  change (Math_max0 (plus_delta Undefined Minus1)) with (Int 0).
  rewrite !lookup_insert_eq. repeat split.
Qed.

Lemma count_updated_unknown_plain_witness :
  voteCounts (reducer voted_state (COUNT_UPDATED "B" Plus1))
    = <["B" := Int 1]> (voteCounts voted_state) /\
  voteCounts (reducer voted_state (COUNT_UPDATED "B" Minus1))
    = <["B" := Int 0]> (voteCounts voted_state) /\
  voteCounts (reducer voted_state (COUNT_UPDATED "B" Plus1)) !! "B" = Some (Int 1) /\
  voteCounts (reducer voted_state (COUNT_UPDATED "B" Minus1)) !! "B" = Some (Int 0).
Proof.
  apply (count_updated_unknown_plain voted_state "B").
  - reflexivity.
  - exact plain_B.
Defined.

(** ** Submissions: outcomes *)

(** X18. A submission dispatches two actions and ends either voted, with the
    chosen van recorded and no error, or in error, with a message and the
    recorded vote untouched. It ends voted exactly when the RPC reports no
    transport error and no non-empty embedded error; a transport error takes
    precedence over an embedded one. *)
Theorem castVote_outcome (s : VotingState) (vanId : string) (r : Response RpcData) :
  let s' := dispatch_all s (castVote vanId r) in
  length (castVote vanId r) = 2%nat /\
  ((status s' = voted /\ error_msg s' = None /\ userVanId s' = Some vanId) \/
   (status s' = error /\ is_Some (error_msg s') /\ userVanId s' = userVanId s)) /\
  (status s' = voted <-> resp_error r = None /\ truthy (embedded_error r) = false) /\
  (forall msg, resp_error r = Some msg -> error_msg s' = Some msg).
Proof.
  cbv zeta. unfold castVote.
  destruct (resp_error r) as [m|]; [|destruct (truthy (embedded_error r)) eqn:E]; cbn.
  - split; [done|]. split; [right; by repeat split|]. split.
    + split; [discriminate | intros [? _]; discriminate].
    + by intros ? [= ->].
  - split; [done|]. split; [right; by repeat split|]. split.
    + split; [discriminate | intros [_ ?]; discriminate].
    + discriminate.
  - split; [done|]. split; [left; by repeat split|]. split; [done | discriminate].
Qed.

(** X19. After a failed submission, clearing the error gives the state that
    clearing would have given before the submission: status idle and no
    error, also for a user whose earlier vote is still recorded. *)
Theorem failed_vote_then_clear (s : VotingState) (vanId : string) (r : Response RpcData) :
  is_Some (resp_error r) \/ truthy (embedded_error r) = true ->
  let s' := dispatch_all s (castVote vanId r ++ [CLEAR_ERROR]) in
  s' = reducer s CLEAR_ERROR /\
  status s' = idle /\ error_msg s' = None /\ userVanId s' = userVanId s.
Proof.
  intros H. cbv zeta. unfold castVote.
  destruct (resp_error r) as [m|].
  - cbn. by repeat split.
  - destruct H as [[? H] | ->]; [discriminate|]. cbn. by repeat split.
Qed.

Lemma failed_vote_then_clear_witness :
  let s' := dispatch_all voted_state (castVote "B" rpc_business_failure ++ [CLEAR_ERROR]) in
  s' = reducer voted_state CLEAR_ERROR /\
  status s' = idle /\ error_msg s' = None /\ userVanId s' = userVanId voted_state.
Proof.
  apply (failed_vote_then_clear voted_state "B" rpc_business_failure).
  right. reflexivity.
Defined.


(** ** Percentages: keys, order, extremes and sum *)

(** X20. The percentages have the keys of the counts, except "__proto__":
    an own key of that name gets no percentage. *)
Theorem derivePercentages_keys (counts : VoteCounts) :
  dom (derivePercentages counts).1 = dom counts ∖ {[ "__proto__" ]} /\
  forall id, (derivePercentages counts).1 !! id = None <->
             counts !! id = None \/ id = "__proto__".
Proof.
  assert (H : forall id, (derivePercentages counts).1 !! id = None <->
                         counts !! id = None \/ id = "__proto__").
  { intros id. rewrite derivePercentages_lookup.
    destruct (String.eqb_spec id "__proto__") as [->|Hne]; [by split; auto|].
    destruct (counts !! id); cbn; [|by split; auto].
    split; [discriminate | intros [H|H]; [discriminate | contradiction]]. }
  split; [|exact H].
  apply set_eq. intros id.
  rewrite elem_of_difference, !elem_of_dom, elem_of_singleton, <- !not_eq_None_Some, H.
  split; [intros Hn; split; intros ?; apply Hn; auto | intros [? ?] [?|?]; done].
Qed.

(** Without an own key "__proto__" the percentages are the image of the
    counts. *)
Lemma derivePercentages_fmap (counts : VoteCounts) :
  counts !! "__proto__" = None ->
  (derivePercentages counts).1 = js_percent (sum_values counts) <$> counts.
Proof.
  intros Hp. apply map_eq. intros id. rewrite derivePercentages_lookup, lookup_fmap.
  destruct (String.eqb_spec id "__proto__") as [->|_]; [by rewrite Hp | reflexivity].
Qed.

(** X21. Percentages follow the order of the counts: a van with at least as
    many votes as another never shows a smaller percentage. Both ids are
    other than "__proto__", which gets no percentage. *)
Theorem percentages_monotone (counts : VoteCounts) (id1 id2 : string) (n1 n2 : Z) :
  nonneg_counts counts -> 0 < spec_total counts < 2 ^ 44 ->
  id1 <> "__proto__" -> id2 <> "__proto__" ->
  counts !! id1 = Some (Int n1) -> counts !! id2 = Some (Int n2) -> n1 <= n2 ->
  exists p1 p2,
    (derivePercentages counts).1 !! id1 = Some (Int p1) /\
    (derivePercentages counts).1 !! id2 = Some (Int p2) /\ p1 <= p2.
Proof.
  intros Hnn Ht Hi1 Hi2 H1 H2 Hle.
  destruct (counts_in_range counts id1 n1 Hnn ltac:(lia) Hi1 H1) as (_ & Hn1 & L1).
  destruct (counts_in_range counts id2 n2 Hnn ltac:(lia) Hi2 H2) as (_ & Hn2 & L2).
  exists (percent (spec_total counts) n1), (percent (spec_total counts) n2).
  split; [exact L1|]. split; [exact L2|].
  pose proof (Binary64Facts.percent_nearest n1 _ Hn1 Ht) as P1.
  pose proof (Binary64Facts.percent_nearest n2 _ Hn2 Ht) as P2.
  destruct (Z.eq_dec n1 n2) as [->|Hne]; [lia|]. nia.
Qed.

Lemma counts_2_1_total : 0 < spec_total counts_2_1 < 2 ^ 44.
Proof. vm_compute. split; reflexivity. Qed.

Lemma percentages_monotone_witness :
  exists p1 p2,
    (derivePercentages counts_2_1).1 !! "B" = Some (Int p1) /\
    (derivePercentages counts_2_1).1 !! "A" = Some (Int p2) /\ p1 <= p2.
Proof.
  apply (percentages_monotone counts_2_1 "B" "A" 1 2).
  - exact counts_2_1_nonneg.
  - exact counts_2_1_total.
  - discriminate.
  - discriminate.
  - vm_compute. reflexivity.
  - vm_compute. reflexivity.
  - lia.
Defined.

(** X22. A van without votes shows 0 and a van holding every vote shows
    100, whenever there is at least one vote; the id is other than
    "__proto__", which gets no percentage. *)
Theorem percentages_extremes (counts : VoteCounts) (id : string) (n : Z) :
  nonneg_counts counts -> 0 < spec_total counts < 2 ^ 44 ->
  id <> "__proto__" -> counts !! id = Some (Int n) ->
  (n = 0 -> (derivePercentages counts).1 !! id = Some (Int 0)) /\
  (n = spec_total counts -> (derivePercentages counts).1 !! id = Some (Int 100)).
Proof.
  intros Hnn Ht Hid Hn.
  destruct (counts_in_range counts id n Hnn ltac:(lia) Hid Hn) as (_ & Hle & L).
  pose proof (Binary64Facts.percent_nearest n _ Hle Ht) as P.
  rewrite L. split; intros E; f_equal; f_equal; nia.
Qed.

Lemma percentages_extremes_witness :
  (2 = 0 -> (derivePercentages (voteCounts voted_state)).1 !! "A" = Some (Int 0)) /\
  (2 = spec_total (voteCounts voted_state) ->
   (derivePercentages (voteCounts voted_state)).1 !! "A" = Some (Int 100)).
Proof.
  apply (percentages_extremes (voteCounts voted_state) "A" 2).
  - exact voted_state_nonneg.
  - vm_compute. split; reflexivity.
  - discriminate.
  - vm_compute. reflexivity.
Defined.

(** Rounding drift of a family of counts under a fixed total. *)
Lemma percent_sum_drift (total : Z) (m : VoteCounts) :
  0 < total < 2 ^ 44 ->
  (forall i n, m !! i = Some n -> exists z, n = Int z /\ 0 <= z <= total) ->
  exists S T,
    sum_values (js_percent (Int total) <$> m) = Int S /\ sum_values m = Int T /\
    - Z.of_nat (size m) * total <= 2 * (total * S - 100 * T)
                                <= Z.of_nat (size m) * total.
Proof.
  intros Ht. induction m as [|i x m Hi IH] using map_ind; intros Hm.
  - exists 0, 0. rewrite fmap_empty, sum_values_empty, map_size_empty.
    split; [done|]. split; [done|]. lia.
  - destruct (Hm i x) as (z & -> & Hz); [apply lookup_insert_eq|].
    destruct IH as (S & T & HS & HT & Hb).
    { intros j n Hj. apply (Hm j). rewrite lookup_insert_ne; [exact Hj|].
      intros ->. congruence. }
    exists (S + percent total z), (T + z).
    rewrite fmap_insert, !sum_values_insert, map_size_insert_None, HS, HT;
      [|exact Hi | exact Hi | by rewrite lookup_fmap, Hi].
    split; [reflexivity|]. split; [reflexivity|].
    pose proof (Binary64Facts.percent_nearest z total Hz Ht) as P. nia.
Qed.

(** X23. With at least one vote and no own key "__proto__", the percentages
    add up to 100 up to the rounding of each: the sum differs from 100 by at
    most half the number of options. *)
Theorem percentages_sum (counts : VoteCounts) :
  nonneg_counts counts -> 0 < spec_total counts < 2 ^ 44 ->
  counts !! "__proto__" = None ->
  exists S, sum_values (derivePercentages counts).1 = Int S /\
    - Z.of_nat (size counts) <= 2 * (S - 100) <= Z.of_nat (size counts).
Proof.
  intros Hnn Ht Hp.
  pose proof (sum_values_spec_total counts Hnn) as Hs.
  destruct (nonneg_counts_sum counts Hnn) as (t & Ht' & _ & Hle).
  rewrite Hs in Ht'. injection Ht' as <-.
  destruct (percent_sum_drift (spec_total counts) counts Ht Hle) as (S & T & HS & HT & D).
  rewrite Hs in HT. injection HT as <-.
  exists S. rewrite (derivePercentages_fmap _ Hp), Hs. split; [exact HS | nia].
Qed.

Lemma percentages_sum_witness :
  exists S, sum_values (derivePercentages counts_2_1).1 = Int S /\
    - Z.of_nat (size counts_2_1) <= 2 * (S - 100) <= Z.of_nat (size counts_2_1).
Proof.
  apply (percentages_sum counts_2_1).
  - exact counts_2_1_nonneg.
  - exact counts_2_1_total.
  - vm_compute. reflexivity.
Defined.

(** ** Admin operations *)

(** X24. [createPoll] reports success exactly when the deactivation
    succeeded, the insertion of the poll reported no error, and the insertion
    of the vans succeeded: of the vans carrying the id of the returned row,
    or of no row at all when the insertion returned no row and there is no
    van. *)
Theorem createPoll_success_iff (db : AdminStore) (title monthYear : string)
    (vs : list NewVanInput) :
  let r := insert_poll db title monthYear (admin_user db) in
  (createPoll db title monthYear vs).2 = Returned None <->
  deactivate_active_err db = None /\ resp_error r = None /\
  ((exists p, resp_data r = Some p /\
              insert_vans_err db (map (van_row (poll_id p)) vs) = None) \/
   (resp_data r = None /\ vs = [] /\ insert_vans_err db [] = None)).
Proof.
  cbv zeta. unfold createPoll. destruct (deactivate_active_err db) as [m|].
  { split; [discriminate | intros [? _]; discriminate]. }
  destruct (insert_poll db title monthYear (admin_user db)) as [d e].
  cbn [resp_error resp_data]. destruct e as [m|].
  { split; [discriminate | intros (_ & ? & _); discriminate]. }
  destruct d as [p|]; [|destruct vs as [|v vs]]; cbn.
  - split.
    + intros [= E]. split; [done|]. split; [done|]. left. by exists p.
    + intros (_ & _ & [(q & [= <-] & E) | (? & _)]); [by rewrite E | discriminate].
  - split.
    + intros [= E]. split; [done|]. split; [done|]. by right.
    + intros (_ & _ & [(q & ? & _) | (_ & _ & E)]); [discriminate | by rewrite E].
  - split; [discriminate|].
    intros (_ & _ & [(q & ? & _) | (_ & ? & _)]); discriminate.
Qed.

(** X25. The writes of [createPoll] and its result, outcome by outcome.
    The deactivation of the active poll is the first write, and the only one
    when it fails. Otherwise the poll is inserted next, and it is the last
    write when its insertion reports an error, or returns no row while there
    are vans, in which case the operation rejects. Otherwise the vans are
    inserted last, one row per input in the order given, each carrying the
    id of the returned row, and the error of that insertion is the result: a
    rejected insertion of the vans leaves the new poll in place. *)
Theorem createPoll_writes (db : AdminStore) (title monthYear : string)
    (vs : list NewVanInput) :
  let r := insert_poll db title monthYear (admin_user db) in
  let ins := InsertPoll title monthYear (admin_user db) in
  let out := createPoll db title monthYear vs in
  (forall m, deactivate_active_err db = Some m ->
     out = ([DeactivateActive], Returned (Some m))) /\
  (deactivate_active_err db = None ->
     (forall m, resp_error r = Some m ->
        out = ([DeactivateActive; ins], Returned (Some m))) /\
     (resp_error r = None ->
        (forall p, resp_data r = Some p ->
           let rows := map (van_row (poll_id p)) vs in
           out = ([DeactivateActive; ins; InsertVans rows],
                  Returned (insert_vans_err db rows)) /\
           length rows = length vs /\
           Forall (fun row => vr_poll_id row = poll_id p) rows) /\
        (resp_data r = None ->
           (vs = [] -> out = ([DeactivateActive; ins; InsertVans []],
                              Returned (insert_vans_err db []))) /\
           (vs <> [] -> out = ([DeactivateActive; ins], Thrown))))).
Proof.
  cbv zeta. unfold createPoll. split.
  - intros m ->. reflexivity.
  - intros ->. split.
    + intros m ->. reflexivity.
    + intros ->. split.
      * intros p ->. cbn [van_rows]. split; [reflexivity|]. split; [apply length_map|].
        apply Forall_forall. intros row Hr. apply list_elem_of_In in Hr.
        apply in_map_iff in Hr as (v & <- & _). reflexivity.
      * intros ->. split; [intros ->; reflexivity|].
        intros Hne. destruct vs; [contradiction | reflexivity].
Qed.

(** X26. [resetPoll] deletes votes only after it has read the period of the
    poll, and only those of that period; it writes nothing when the read
    fails, and reports success exactly when both the read and the deletion
    succeeded. *)
Theorem resetPoll_writes (db : AdminStore) (pollId : string) :
  let w := (resetPoll db pollId).1 in
  (forall x, x ∈ w ->
     exists period, x = DeleteVotes period /\ w = [x] /\
       select_period db pollId = {| resp_data := Some period; resp_error := None |}) /\
  (is_Some (resp_error (select_period db pollId)) -> w = []) /\
  ((resetPoll db pollId).2 = Returned None <->
   exists period,
     select_period db pollId = {| resp_data := Some period; resp_error := None |} /\
     delete_votes_err db period = None).
Proof.
  cbv zeta. unfold resetPoll.
  destruct (select_period db pollId) as [d e]. cbn [resp_error resp_data].
  destruct e as [m|]; [|destruct d as [period|]]; cbn [fst snd].
  - split; [intros x Hx; by apply elem_of_nil in Hx|]. split; [done|].
    split; [discriminate | intros (? & ? & _); discriminate].
  - split.
    + intros x Hx. apply list_elem_of_singleton in Hx as ->. by exists period.
    + split; [by intros [? ?]|]. split.
      * intros [= E]. by exists period.
      * intros (q & [= <-] & E). by rewrite E.
  - split; [intros x Hx; by apply elem_of_nil in Hx|]. split; [done|].
    split; [discriminate | intros (? & ? & _); discriminate].
Qed.

(** ** Option-list events *)

(** X27. A change on [vans] is dropped, leaving the session as it is, when
    no poll is displayed or when the re-fetch of the vans returns no data. *)
Theorem vans_change_ignored (st : Store) (s : VotingState) :
  poll s = None \/
  (exists p, poll s = Some p /\ resp_data (vans_for st (poll_id p)) = None) ->
  handle_vans_change st s = s.
Proof.
  unfold handle_vans_change, on_vans_change.
  intros [-> | (p & -> & ->)]; reflexivity.
Qed.

Lemma vans_change_ignored_witness :
  handle_vans_change store_ok initialState = initialState /\
  handle_vans_change store_vans_down voted_state = voted_state.
Proof.
  split.
  - apply (vans_change_ignored store_ok initialState). left. reflexivity.
  - apply (vans_change_ignored store_vans_down voted_state). right.
    exists poll_may. split; reflexivity.
Defined.

(** X28. A change on [vans] while a poll is displayed, with a re-fetch that
    answers: the displayed poll stays, the vans become the re-fetched list,
    error and poll-loading flag stay, and the handler, going through
    [POLL_REPLACED], empties counts and percentages, zeroes the total, clears
    the user's vote, sets the status to idle and marks the counts as
    loading. *)
Theorem vans_change_effect (st : Store) (s : VotingState) (p : Poll) (vs : list Van) :
  poll s = Some p -> resp_data (vans_for st (poll_id p)) = Some vs ->
  let s' := handle_vans_change st s in
  poll s' = Some p /\ vans s' = vs /\
  error_msg s' = error_msg s /\ isLoadingPoll s' = isLoadingPoll s /\
  voteCounts s' = ∅ /\ percentages s' = ∅ /\ totalVotes s' = Int 0 /\
  userVanId s' = None /\ status s' = idle /\ isLoadingCounts s' = true.
Proof.
  intros Hp Hv. cbv zeta. rewrite (handle_vans_change_eq _ _ _ _ Hp Hv). cbn.
  by repeat split.
Qed.

Lemma vans_change_effect_witness :
  let s' := handle_vans_change store_ok voted_state in
  poll s' = Some poll_may /\ vans s' = [van_a; van_b] /\
  error_msg s' = error_msg voted_state /\ isLoadingPoll s' = isLoadingPoll voted_state /\
  voteCounts s' = ∅ /\ percentages s' = ∅ /\ totalVotes s' = Int 0 /\
  userVanId s' = None /\ status s' = idle /\ isLoadingCounts s' = true.
Proof.
  apply (vans_change_effect store_ok voted_state poll_may [van_a; van_b]); reflexivity.
Defined.
